(** * Mythic Bastionland combat tracker: the character record and its
      damage-resolution rules

    A shallow embedding of the [Character] dataclass of [app.py] and of the
    operations that mutate it: [apply_damage], [heal_vigor], [restore_guard],
    [reset_to_full], and the "Update Character" form handler which replaces
    the maxima.  Python integers are unbounded, so every numeric field is a
    [Z]; the methods mutate [self] in place, which is rendered here as
    explicit state passing: each operation takes the record and returns the
    new record (together with the report dictionary for [apply_damage]). *)

From Stdlib Require Import ZArith QArith Bool List String DecimalString Lia.
From Stdlib Require Import Permutation.
Import ListNotations.

Local Open Scope Z_scope.

(** ** The data model *)

Module Tracker.

(** The dataclass, field for field. [profile_image] is [bytes] defaulting to
    [None]. *)
Record Character : Type := mkCharacter {
  name : string;
  vigor : Z;
  max_vigor : Z;
  clarity : Z;
  max_clarity : Z;
  spirit : Z;
  max_spirit : Z;
  guard : Z;
  max_guard : Z;
  armor : Z;
  is_mortally_wounded : bool;
  is_wounded : bool;
  is_impaired : bool;
  is_fatigued : bool;
  is_scarred : bool;
  is_alive : bool;
  notes : string;
  profile_image : option (list Byte.byte)
}.

(** Attribute assignments [self.f = v]. *)
Definition set_vigor (c : Character) (v : Z) : Character :=
  mkCharacter (name c) v (max_vigor c) (clarity c) (max_clarity c)
    (spirit c) (max_spirit c) (guard c) (max_guard c) (armor c)
    (is_mortally_wounded c) (is_wounded c) (is_impaired c) (is_fatigued c)
    (is_scarred c) (is_alive c) (notes c) (profile_image c).

Definition set_guard (c : Character) (g : Z) : Character :=
  mkCharacter (name c) (vigor c) (max_vigor c) (clarity c) (max_clarity c)
    (spirit c) (max_spirit c) g (max_guard c) (armor c)
    (is_mortally_wounded c) (is_wounded c) (is_impaired c) (is_fatigued c)
    (is_scarred c) (is_alive c) (notes c) (profile_image c).

Definition set_is_mortally_wounded (c : Character) (b : bool) : Character :=
  mkCharacter (name c) (vigor c) (max_vigor c) (clarity c) (max_clarity c)
    (spirit c) (max_spirit c) (guard c) (max_guard c) (armor c)
    b (is_wounded c) (is_impaired c) (is_fatigued c)
    (is_scarred c) (is_alive c) (notes c) (profile_image c).

Definition set_is_wounded (c : Character) (b : bool) : Character :=
  mkCharacter (name c) (vigor c) (max_vigor c) (clarity c) (max_clarity c)
    (spirit c) (max_spirit c) (guard c) (max_guard c) (armor c)
    (is_mortally_wounded c) b (is_impaired c) (is_fatigued c)
    (is_scarred c) (is_alive c) (notes c) (profile_image c).

Definition set_is_scarred (c : Character) (b : bool) : Character :=
  mkCharacter (name c) (vigor c) (max_vigor c) (clarity c) (max_clarity c)
    (spirit c) (max_spirit c) (guard c) (max_guard c) (armor c)
    (is_mortally_wounded c) (is_wounded c) (is_impaired c) (is_fatigued c)
    b (is_alive c) (notes c) (profile_image c).

Definition set_is_alive (c : Character) (b : bool) : Character :=
  mkCharacter (name c) (vigor c) (max_vigor c) (clarity c) (max_clarity c)
    (spirit c) (max_spirit c) (guard c) (max_guard c) (armor c)
    (is_mortally_wounded c) (is_wounded c) (is_impaired c) (is_fatigued c)
    (is_scarred c) b (notes c) (profile_image c).

(** ** The damage log

    [damage_log] is a list of f-strings.  Each entry is kept as a tagged
    value carrying the numbers interpolated into the text; [render] gives the
    text itself. *)
Inductive LogEntry : Type :=
| ArmorAbsorbed (armor_absorbed : Z)
| GuardReduced (guard_damage now : Z)
| ScarInflicted
| VigorReduced (vigor_damage now : Z)
| NowWounded
| MortalWound
| Slain.

Definition show_int (z : Z) : string :=
  DecimalString.NilZero.string_of_int (Z.to_int z).

Definition render (e : LogEntry) : string :=
  match e with
  | ArmorAbsorbed a => "Armor absorbed " ++ show_int a ++ " damage"
  | GuardReduced d g =>
      "Guard reduced by " ++ show_int d ++ " (now " ++ show_int g ++ ")"
  | ScarInflicted => "🔥 SCAR inflicted! (Guard reduced to 0)"
  | VigorReduced d v =>
      "Vigor reduced by " ++ show_int d ++ " (now " ++ show_int v ++ ")"
  | NowWounded => "🩸 Character is now WOUNDED!"
  | MortalWound => "⚠️ MORTAL WOUND inflicted!"
  | Slain => "💀 CHARACTER SLAIN!"
  end%string.

(** The entries that record a mitigation step (armor, guard, vigor), as
    opposed to the status announcements. *)
Definition is_mitigation (e : LogEntry) : bool :=
  match e with
  | ArmorAbsorbed _ | GuardReduced _ _ | VigorReduced _ _ => true
  | _ => false
  end.

Definition is_scar_entry (e : LogEntry) : bool :=
  match e with ScarInflicted => true | _ => false end.

(** The dictionary returned by [apply_damage]. *)
Record DamageReport : Type := mkReport {
  original_damage : Z;
  final_damage : Z;
  damage_log : list LogEntry;
  wounded : bool;
  mortal_wound_inflicted : bool;
  scar_inflicted : bool;
  character_slain : bool
}.

(** ** [Character.apply_damage]

    The method body is three consecutive blocks working on [self] and on the
    local [damage]; each block is one function below, returning what it
    leaves behind for the rest of the body. *)

(** Step 1: [if self.armor > 0:] subtract the absorbed amount from the
    local [damage] and log it.  Returns the new [damage] and the log. *)
Definition armor_stage (self : Character) (damage : Z) : Z * list LogEntry :=
  if armor self >? 0 then
    let armor_absorbed := Z.min damage (armor self) in
    (damage - armor_absorbed, [ArmorAbsorbed armor_absorbed])
  else (damage, []).

Record GuardStage : Type := mkGuardStage {
  gs_self : Character;
  gs_damage : Z;
  gs_log : list LogEntry;
  gs_scar_inflicted : bool
}.

(** Step 2: [if damage > 0 and self.guard > 0:]. *)
Definition guard_stage (self : Character) (damage : Z) : GuardStage :=
  if (damage >? 0) && (guard self >? 0) then
    let original_guard := guard self in
    let guard_damage := Z.min damage (guard self) in
    let self1 := set_guard self (guard self - guard_damage) in
    let damage1 := damage - guard_damage in
    let log1 := [GuardReduced guard_damage (guard self1)] in
    if (original_guard >? 0) && (guard self1 =? 0) then
      mkGuardStage (set_is_scarred self1 true) damage1
        (log1 ++ [ScarInflicted]) true
    else mkGuardStage self1 damage1 log1 false
  else mkGuardStage self damage [] false.

(** [vigor_damage >= (original_vigor / 2)]: [/] is Python's true division
    of two integers, which yields the float nearest to the quotient, ties
    going to the even significand; the comparison of the integer with that
    float is then exact.

    A float carries 53 significant bits.  [round_to_float a] is, for
    [a >= 0], the integer of at most 53 significant bits nearest to [a]
    (ties to even); halving is exact on floats, so the float quotient of
    [n] by two is [round_to_float] of the magnitude, halved, with the sign
    of [n].  Where that quotient rounds past the largest float (magnitudes
    from just under [2^1025]) the source raises [OverflowError]; the
    function below keeps rounding there. *)
Definition round_to_float (a : Z) : Z :=
  let k := Z.log2 a + 1 in
  if k <=? 53 then a
  else
    let s := k - 53 in
    let q := Z.shiftr a s in
    let r := a - Z.shiftl q s in
    let half := Z.shiftl 1 (s - 1) in
    let q' := if (r >? half) || ((r =? half) && Z.odd q) then q + 1 else q in
    Z.shiftl q' s.

(** [n / 2], as the rational the float stands for. *)
Definition true_div_2 (n : Z) : Q :=
  Qmake (Z.sgn n * round_to_float (Z.abs n)) 2.

Definition at_least_half (vigor_damage original_vigor : Z) : bool :=
  Qle_bool (true_div_2 original_vigor) (inject_Z vigor_damage).

Record VigorStage : Type := mkVigorStage {
  vs_self : Character;
  vs_vigor_damage : Z;
  vs_log : list LogEntry;
  vs_wounded : bool;
  vs_mortal_wound_inflicted : bool
}.

(** Step 3: [if damage > 0:].  The local [damage] is read but not assigned
    in this block. *)
Definition vigor_stage (self : Character) (damage : Z) : VigorStage :=
  if damage >? 0 then
    let original_vigor := vigor self in
    let vigor_damage := Z.min damage (vigor self) in
    let self1 := set_vigor self (vigor self - vigor_damage) in
    let log1 := [VigorReduced vigor_damage (vigor self1)] in
    let w := vigor_damage >? 0 in
    let self2 := if w then set_is_wounded self1 true else self1 in
    let log2 := if w then log1 ++ [NowWounded] else log1 in
    let m := at_least_half vigor_damage original_vigor in
    let self3 := if m then set_is_mortally_wounded self2 true else self2 in
    let log3 := if m then log2 ++ [MortalWound] else log2 in
    let dead := vigor self3 <=? 0 in
    let self4 := if dead then set_is_alive self3 false else self3 in
    let log4 := if dead then log3 ++ [Slain] else log3 in
    mkVigorStage self4 vigor_damage log4 w m
  else mkVigorStage self 0 [] false false.

(** The local [damage] once the armor and guard blocks have run: what the
    vigor block sees, and what the report subtracts from the original. *)
Definition damage_after_guard (self : Character) (damage : Z) : Z :=
  gs_damage (guard_stage self (fst (armor_stage self damage))).

Definition apply_damage (self : Character) (damage : Z)
  : Character * DamageReport :=
  let original_damage := damage in
  let '(damage1, log_a) := armor_stage self damage in
  let g := guard_stage self damage1 in
  let v := vigor_stage (gs_self g) (gs_damage g) in
  let self' := vs_self v in
  (self',
   mkReport original_damage
            (original_damage - gs_damage g)
            (log_a ++ gs_log g ++ vs_log v)
            (vs_wounded v)
            (vs_mortal_wound_inflicted v)
            (gs_scar_inflicted g)
            (negb (is_alive self'))).

(** ** The other mutators *)

Definition heal_vigor (self : Character) (amount : Z) : Character :=
  let self1 := set_vigor self (Z.min (vigor self + amount) (max_vigor self)) in
  if vigor self1 =? max_vigor self1 then
    set_is_mortally_wounded (set_is_wounded self1 false) false
  else self1.

Definition restore_guard (self : Character) (amount : Z) : Character :=
  set_guard self (Z.min (guard self + amount) (max_guard self)).

Definition reset_to_full (self : Character) : Character :=
  mkCharacter (name self) (max_vigor self) (max_vigor self)
    (max_clarity self) (max_clarity self) (max_spirit self) (max_spirit self)
    (max_guard self) (max_guard self) (armor self)
    false false false false false true (notes self) (profile_image self).

(** The "Update Character" form of [character_management_page]: the five
    inputs overwrite the maxima and the armor, then each current value is
    lowered to its new maximum where it exceeds it. *)
Definition set_maximums (character : Character)
    (new_max_vigor new_max_clarity new_max_spirit new_max_guard new_armor : Z)
  : Character :=
  mkCharacter (name character)
    (Z.min (vigor character) new_max_vigor) new_max_vigor
    (Z.min (clarity character) new_max_clarity) new_max_clarity
    (Z.min (spirit character) new_max_spirit) new_max_spirit
    (Z.min (guard character) new_max_guard) new_max_guard
    new_armor
    (is_mortally_wounded character) (is_wounded character)
    (is_impaired character) (is_fatigued character)
    (is_scarred character) (is_alive character)
    (notes character) (profile_image character).

(** ** Sequences of operations *)

Inductive Op : Type :=
| ApplyDamage (damage : Z)
| HealVigor (amount : Z)
| RestoreGuard (amount : Z)
| ResetToFull
| SetMaximums (new_max_vigor new_max_clarity new_max_spirit
               new_max_guard new_armor : Z).

Definition step (c : Character) (o : Op) : Character :=
  match o with
  | ApplyDamage d => fst (apply_damage c d)
  | HealVigor a => heal_vigor c a
  | RestoreGuard a => restore_guard c a
  | ResetToFull => reset_to_full c
  | SetMaximums mv mc ms mg a => set_maximums c mv mc ms mg a
  end.

Definition run (c : Character) (ops : list Op) : Character :=
  fold_left step ops c.

(** The inputs the forms let through: amounts are not negative, and the
    maxima respect the [min_value] of their number inputs. *)
Definition valid_op (o : Op) : bool :=
  match o with
  | ApplyDamage d => 0 <=? d
  | HealVigor a => 0 <=? a
  | RestoreGuard a => 0 <=? a
  | ResetToFull => true
  | SetMaximums mv mc ms mg a =>
      (1 <=? mv) && (1 <=? mc) && (1 <=? ms) && (0 <=? mg) && (0 <=? a)
  end.

Definition is_reset (o : Op) : bool :=
  match o with ResetToFull => true | _ => false end.

(** A record as [character_creation_page] builds it: every pool at its
    maximum, no condition, alive. *)
Definition new_character (n : string) (v cl sp g a : Z) (nt : string)
    (img : option (list Byte.byte)) : Character :=
  mkCharacter n v v cl cl sp sp g g a
    false false false false false true nt img.

(** The pool bounds. *)
Definition pools_ok (c : Character) : Prop :=
  0 <= vigor c <= max_vigor c /\ 0 <= guard c <= max_guard c.


(** ** Records and statements used by the properties *)

Definition fighter (v g a : Z) : Character :=
  new_character "Aldric" v 10 10 g a "" None.

(** Vigor 10, guard 3, armor 2. *)
Definition armored : Character := fighter 10 3 2.

(** A slain character: vigor spent, guard spent, armor 1. *)
Definition fallen : Character :=
  mkCharacter "Aldric" 0 10 10 10 10 10 0 3 1
    false true false false true false "" None.

(** The zero-damage edge case as the specification words it: no mitigation
    entry in the log, the four signals off, the record untouched. *)
Definition zero_damage_is_silent (c : Character) : Prop :=
  existsb is_mitigation (damage_log (snd (apply_damage c 0))) = false
  /\ wounded (snd (apply_damage c 0)) = false
  /\ mortal_wound_inflicted (snd (apply_damage c 0)) = false
  /\ scar_inflicted (snd (apply_damage c 0)) = false
  /\ character_slain (snd (apply_damage c 0)) = false
  /\ fst (apply_damage c 0) = c.

(** A sheet whose vigor is past the 53 bits of a float. *)
Definition titan : Character := fighter (2 ^ 53 + 1) 0 0.

(** The mortal-wound rule as the specification words it: the signal is
    raised exactly when the vigor lost is at least half of the vigor held
    before, the half being the exact fraction. *)
Definition mortal_at_half_or_more (c : Character) (d : Z) : Prop :=
  mortal_wound_inflicted (snd (apply_damage c d)) = true
  <-> (inject_Z (vigor c) / 2
       <= inject_Z (vigor c - vigor (fst (apply_damage c d))))%Q.

(** What every valid operation maintains once the character was created
    with a positive vigor: the maximum stays positive, and a living
    character has vigor left. *)
Definition alive_has_vigor (s : Character) : Prop :=
  1 <= max_vigor s /\ (is_alive s = true -> 1 <= vigor s).

(** The specification's wording of the death invariant: at some point of the
    session the vigor was down to zero, and no reset came after it. *)
Definition spent_since_reset (c : Character) (ops : list Op) : Prop :=
  exists pre post,
    ops = pre ++ post /\ vigor (run c pre) <= 0
    /\ existsb is_reset post = false.

End Tracker.

Import Tracker.

(** * The pages: roster, forms and buttons

    The rest of [app.py] keeps the characters in a dictionary held by the
    session state and changes them from the handlers of its three pages.
    Each button is an event below; [handle] is one run of [main] on that
    event. *)

Module Pages.

(** ** The remaining attribute assignments *)

Definition set_is_impaired (c : Character) (b : bool) : Character :=
  mkCharacter (name c) (vigor c) (max_vigor c) (clarity c) (max_clarity c)
    (spirit c) (max_spirit c) (guard c) (max_guard c) (armor c)
    (is_mortally_wounded c) (is_wounded c) b (is_fatigued c)
    (is_scarred c) (is_alive c) (notes c) (profile_image c).

Definition set_is_fatigued (c : Character) (b : bool) : Character :=
  mkCharacter (name c) (vigor c) (max_vigor c) (clarity c) (max_clarity c)
    (spirit c) (max_spirit c) (guard c) (max_guard c) (armor c)
    (is_mortally_wounded c) (is_wounded c) (is_impaired c) b
    (is_scarred c) (is_alive c) (notes c) (profile_image c).

Definition set_notes (c : Character) (s : string) : Character :=
  mkCharacter (name c) (vigor c) (max_vigor c) (clarity c) (max_clarity c)
    (spirit c) (max_spirit c) (guard c) (max_guard c) (armor c)
    (is_mortally_wounded c) (is_wounded c) (is_impaired c) (is_fatigued c)
    (is_scarred c) (is_alive c) s (profile_image c).

Definition set_profile_image (c : Character) (img : option (list Byte.byte))
  : Character :=
  mkCharacter (name c) (vigor c) (max_vigor c) (clarity c) (max_clarity c)
    (spirit c) (max_spirit c) (guard c) (max_guard c) (armor c)
    (is_mortally_wounded c) (is_wounded c) (is_impaired c) (is_fatigued c)
    (is_scarred c) (is_alive c) (notes c) img.

(** ** The manual adjustments of the management page *)

(** "Apply Vigor Change": the change may be negative; the result is clamped
    on both sides, a character at zero is marked dead, and one at its
    maximum loses both wound flags. *)
Definition apply_vigor_change (character : Character) (vigor_change : Z)
  : Character :=
  let c1 := set_vigor character
              (Z.max 0 (Z.min (vigor character + vigor_change)
                              (max_vigor character))) in
  if vigor c1 <=? 0 then set_is_alive c1 false
  else if vigor c1 =? max_vigor c1 then
    set_is_mortally_wounded (set_is_wounded c1 false) false
  else c1.

(** "Apply Guard Change". *)
Definition apply_guard_change (character : Character) (guard_change : Z)
  : Character :=
  set_guard character
    (Z.max 0 (Z.min (guard character + guard_change) (max_guard character))).

(** ** The roster

    [st.session_state.characters] is a [dict] from name to character.  A
    Python dictionary keeps its keys in insertion order, and the pages list
    the keys in that order, so the roster is an association list: assigning
    to a present key replaces the value where it stands, assigning to a new
    key appends. *)
Definition Roster : Type := list (string * Character).

Fixpoint getitem (k : string) (d : Roster) : option Character :=
  match d with
  | [] => None
  | (k', v) :: d' => if String.eqb k k' then Some v else getitem k d'
  end.

(** [k in d]. *)
Definition contains (k : string) (d : Roster) : bool :=
  match getitem k d with Some _ => true | None => false end.

(** [d[k] = v]. *)
Fixpoint setitem (k : string) (v : Character) (d : Roster) : Roster :=
  match d with
  | [] => [(k, v)]
  | (k', v') :: d' =>
      if String.eqb k k' then (k', v) :: d' else (k', v') :: setitem k v d'
  end.

(** [del d[k]], for a key that is present. *)
Fixpoint delitem (k : string) (d : Roster) : Roster :=
  match d with
  | [] => []
  | (k', v') :: d' =>
      if String.eqb k k' then d' else (k', v') :: delitem k d'
  end.

Definition keys (d : Roster) : list string := map fst d.
Definition values (d : Roster) : list Character := map snd d.

(** ** The session state

    The attributes of [st.session_state] the handlers write; each may be
    absent. *)
Record SessionState : Type := mkSession {
  characters : option Roster;
  last_damage_result : option DamageReport;
  last_target : option string
}.

Definition new_session : SessionState := mkSession None None None.

Definition set_characters (st : SessionState) (d : Roster) : SessionState :=
  mkSession (Some d) (last_damage_result st) (last_target st).

(** The dictionary, created empty when the attribute is missing. *)
Definition roster (st : SessionState) : Roster :=
  match characters st with Some d => d | None => [] end.

Definition load_characters (st : SessionState) : SessionState * Roster :=
  (set_characters st (roster st), roster st).

Definition save_character (character : Character) (st : SessionState)
  : SessionState :=
  set_characters st (setitem (name character) character (roster st)).

Definition delete_character (n : string) (st : SessionState) : SessionState :=
  match characters st with
  | Some d => if contains n d then set_characters st (delitem n d) else st
  | None => st
  end.

(** ** Events *)

Inductive Event : Type :=
| CreateCharacter (n : string) (v cl sp g a : Z) (nt : string)
                  (uploaded_image : option (list Byte.byte))
| FullHeal (selected : string)
| ApplyVigorChange (selected : string) (vigor_change : Z)
| ApplyGuardChange (selected : string) (guard_change : Z)
| ToggleImpaired (selected : string)
| ToggleFatigued (selected : string)
| ToggleScarred (selected : string)
| SaveImage (selected : string) (new_image : option (list Byte.byte))
| RemoveImage (selected : string)
| SaveNotes (selected : string) (notes_text : string)
| ClearNotes (selected : string)
| UpdateCharacter (selected : string)
                  (new_max_vigor new_max_clarity new_max_spirit
                   new_max_guard new_armor : Z)
| DeleteCharacter (selected : string)
| CombatApplyDamage (target_name : string) (damage_amount : Z)
| CombatToggleImpaired (target_name : string)
| CombatToggleFatigued (target_name : string).

(** The bounds of the number inputs of the creation form. *)
Definition creation_inputs (v cl sp g a : Z) : bool :=
  (1 <=? v) && (v <=? 50) && (1 <=? cl) && (cl <=? 50)
  && (1 <=? sp) && (sp <=? 50) && (0 <=? g) && (g <=? 50)
  && (0 <=? a) && (a <=? 20).

(** The lower bounds of the number inputs of the edit form. *)
Definition edit_inputs (mv mc ms mg a : Z) : bool :=
  (1 <=? mv) && (1 <=? mc) && (1 <=? ms) && (0 <=? mg) && (0 <=? a).

(** [alive_characters], the dictionary comprehension of the combat page. *)
Definition alive_characters (d : Roster) : Roster :=
  filter (fun kv => is_alive (snd kv)) d.

(** A handler of the form "mutate [characters[selected]], then
    [save_character]".  The object mutated is the one the dictionary holds
    under [selected]; saving stores it under its own name.  [None] when the
    select box cannot hold [selected] (not a key) or when the page body is
    skipped ([if selected_char_name:]). *)
Definition on_character (st : SessionState) (d : Roster) (selected : string)
    (f : Character -> Character) : option SessionState :=
  match getitem selected d with
  | Some character =>
      if String.eqb selected "" then None
      else
        let character' := f character in
        Some (save_character character'
                (set_characters st (setitem selected character' d)))
  | None => None
  end.

(** One run of [main] on one event: the roster is loaded, then the page
    handles the event.  [None] means the page does not offer that widget
    value in this state: a number outside the bounds of its input, or a
    name the select box does not list. *)
Definition handle (st0 : SessionState) (ev : Event) : option SessionState :=
  let '(st, d) := load_characters st0 in
  match ev with
  | CreateCharacter n v cl sp g a nt img =>
      if creation_inputs v cl sp g a then
        if negb (String.eqb n "") && negb (contains n d) then
          Some (save_character (new_character n v cl sp g a nt img) st)
        else Some st
      else None
  | FullHeal sel => on_character st d sel reset_to_full
  | ApplyVigorChange sel ch =>
      on_character st d sel (fun c => apply_vigor_change c ch)
  | ApplyGuardChange sel ch =>
      on_character st d sel (fun c => apply_guard_change c ch)
  | ToggleImpaired sel =>
      on_character st d sel (fun c => set_is_impaired c (negb (is_impaired c)))
  | ToggleFatigued sel =>
      on_character st d sel (fun c => set_is_fatigued c (negb (is_fatigued c)))
  | ToggleScarred sel =>
      on_character st d sel (fun c => set_is_scarred c (negb (is_scarred c)))
  | SaveImage sel new_image =>
      match new_image with
      | Some data => on_character st d sel (fun c => set_profile_image c (Some data))
      | None =>
          match getitem sel d with
          | Some _ => if String.eqb sel "" then None else Some st
          | None => None
          end
      end
  | RemoveImage sel => on_character st d sel (fun c => set_profile_image c None)
  | SaveNotes sel txt => on_character st d sel (fun c => set_notes c txt)
  | ClearNotes sel => on_character st d sel (fun c => set_notes c "")
  | UpdateCharacter sel mv mc ms mg a =>
      if edit_inputs mv mc ms mg a then
        on_character st d sel (fun c => set_maximums c mv mc ms mg a)
      else None
  | DeleteCharacter sel =>
      match getitem sel d with
      | Some _ =>
          if String.eqb sel "" then None else Some (delete_character sel st)
      | None => None
      end
  | CombatApplyDamage target damage_amount =>
      if 0 <=? damage_amount then
        match getitem target (alive_characters d) with
        | Some _ =>
            if negb (String.eqb target "") && (damage_amount >? 0) then
              match getitem target d with
              | Some target_character =>
                  let '(c', result) :=
                    apply_damage target_character damage_amount in
                  let st1 :=
                    save_character c'
                      (set_characters st (setitem target c' d)) in
                  Some (mkSession (characters st1) (Some result)
                          (Some target))
              | None => None
              end
            else Some st
        | None => None
        end
      else None
  | CombatToggleImpaired target =>
      match getitem target (alive_characters d) with
      | Some _ =>
          on_character st d target
            (fun c => set_is_impaired c (negb (is_impaired c)))
      | None => None
      end
  | CombatToggleFatigued target =>
      match getitem target (alive_characters d) with
      | Some _ =>
          on_character st d target
            (fun c => set_is_fatigued c (negb (is_fatigued c)))
      | None => None
      end
  end.

(** A session: the events are handled in turn; [None] as soon as one of
    them is not on offer. *)
Fixpoint play (st : SessionState) (evs : list Event) : option SessionState :=
  match evs with
  | [] => Some st
  | ev :: evs' =>
      match handle st ev with
      | Some st' => play st' evs'
      | None => None
      end
  end.

(** ** The overview of the combat page *)

(** The options of the "Filter by Status" select box. *)
Inductive StatusFilter : Type :=
| FilterAll | FilterAlive | FilterDead | FilterWounded
| FilterMortallyWounded | FilterImpaired | FilterFatigued | FilterScarred.

(** The [if]/[elif] chain of the filter loop.  Each branch tests the option
    and a condition on the character; when the condition fails the later
    branches test other options and fail too, so the chain is a case
    analysis on the option. *)
Definition matches (status_filter : StatusFilter) (char : Character) : bool :=
  match status_filter with
  | FilterAll => true
  | FilterAlive => is_alive char
  | FilterDead => negb (is_alive char)
  | FilterWounded => is_alive char && is_wounded char
  | FilterMortallyWounded => is_alive char && is_mortally_wounded char
  | FilterImpaired => is_alive char && is_impaired char
  | FilterFatigued => is_alive char && is_fatigued char
  | FilterScarred => is_alive char && is_scarred char
  end.

(** [filtered_chars]: the matching entries, inserted in roster order. *)
Definition filter_characters (status_filter : StatusFilter) (d : Roster)
  : Roster :=
  filter (fun kv => matches status_filter (snd kv)) d.

(** [sum(1 for char in ... if p(char))]. *)
Definition count (p : Character -> bool) (l : list Character) : Z :=
  fold_right (fun char n => if p char then 1 + n else n) 0 l.

(** The summary statistics, computed on the characters displayed. *)
Record Summary : Type := mkSummary {
  total : Z;
  alive_count : Z;
  dead_count : Z;
  wounded_count : Z;
  mortally_wounded_count : Z;
  impaired_count : Z;
  fatigued_count : Z;
  scarred_count : Z
}.

Definition summary (chars : list Character) : Summary :=
  let alive := count is_alive chars in
  mkSummary (Z.of_nat (List.length chars))
    alive
    (Z.of_nat (List.length chars) - alive)
    (count (fun c => is_alive c && is_wounded c) chars)
    (count (fun c => is_alive c && is_mortally_wounded c) chars)
    (count (fun c => is_alive c && is_impaired c) chars)
    (count (fun c => is_alive c && is_fatigued c) chars)
    (count (fun c => is_alive c && is_scarred c) chars).

(** The status line shown for a character, in the order the pages test it. *)
Inductive Status : Type :=
| StatusSlain | StatusMortallyWounded | StatusWounded | StatusHealthy.

Definition status (character : Character) : Status :=
  if negb (is_alive character) then StatusSlain
  else if is_mortally_wounded character then StatusMortallyWounded
  else if is_wounded character then StatusWounded
  else StatusHealthy.

(** ** Reading the damage log *)

Definition is_wounded_entry (e : LogEntry) : bool :=
  match e with NowWounded => true | _ => false end.

Definition is_mortal_entry (e : LogEntry) : bool :=
  match e with MortalWound => true | _ => false end.

Definition is_slain_entry (e : LogEntry) : bool :=
  match e with Slain => true | _ => false end.

(** ** Well-formed sheets and rosters *)

(** What the forms guarantee of a sheet: maxima within the bounds of their
    inputs, current values within their maxima, and vigor left while the
    character lives. *)
Definition sheet_ok (c : Character) : Prop :=
  0 <= vigor c <= max_vigor c /\ 1 <= max_vigor c
  /\ 1 <= clarity c <= max_clarity c /\ 1 <= spirit c <= max_spirit c
  /\ 0 <= guard c <= max_guard c /\ 0 <= armor c
  /\ (is_alive c = true -> 1 <= vigor c).

(** Every key is the name of the sheet stored under it and is not empty,
    no name occurs twice, and every sheet is well formed. *)
Definition roster_ok (d : Roster) : Prop :=
  NoDup (keys d)
  /\ Forall (fun kv => fst kv = name (snd kv) /\ fst kv <> ""%string
                       /\ sheet_ok (snd kv)) d.

(** A sheet for the examples. *)
Definition brenna : Character :=
  new_character "Brenna" 6 8 9 2 0 "" None.

(** ** What an event is about *)

(** The name an event carries: the one typed in the creation form or the
    one held by the select box of the page. *)
Definition subject (ev : Event) : string :=
  match ev with
  | CreateCharacter n _ _ _ _ _ _ _ => n
  | FullHeal s | ApplyVigorChange s _ | ApplyGuardChange s _
  | ToggleImpaired s | ToggleFatigued s | ToggleScarred s
  | SaveImage s _ | RemoveImage s | SaveNotes s _ | ClearNotes s
  | UpdateCharacter s _ _ _ _ _ | DeleteCharacter s
  | CombatApplyDamage s _ | CombatToggleImpaired s
  | CombatToggleFatigued s => s
  end.

(** What the handler of an event does to the sheet it selects; creation and
    deletion, which act on the roster, are left out. *)
Definition mutation_of (ev : Event) (c : Character) : Character :=
  match ev with
  | CreateCharacter _ _ _ _ _ _ _ _ => c
  | FullHeal _ => reset_to_full c
  | ApplyVigorChange _ ch => apply_vigor_change c ch
  | ApplyGuardChange _ ch => apply_guard_change c ch
  | ToggleImpaired _ | CombatToggleImpaired _ =>
      set_is_impaired c (negb (is_impaired c))
  | ToggleFatigued _ | CombatToggleFatigued _ =>
      set_is_fatigued c (negb (is_fatigued c))
  | ToggleScarred _ => set_is_scarred c (negb (is_scarred c))
  | SaveImage _ (Some data) => set_profile_image c (Some data)
  | SaveImage _ None => c
  | RemoveImage _ => set_profile_image c None
  | SaveNotes _ txt => set_notes c txt
  | ClearNotes _ => set_notes c ""
  | UpdateCharacter _ mv mc ms mg a => set_maximums c mv mc ms mg a
  | DeleteCharacter _ => c
  | CombatApplyDamage _ d => if d >? 0 then fst (apply_damage c d) else c
  end.

Definition acts_on_roster (ev : Event) : bool :=
  match ev with
  | CreateCharacter _ _ _ _ _ _ _ _ | DeleteCharacter _ => true
  | _ => false
  end.

(** A short session for the examples. *)
Definition skirmish : list Event :=
  [CreateCharacter "Brenna" 6 8 9 2 0 "" None;
   CreateCharacter "Aldric" 10 10 10 3 2 "shield" None;
   CreateCharacter "Brenna" 9 9 9 9 9 "" None;
   CombatApplyDamage "Brenna" 5;
   ApplyVigorChange "Aldric" (-25);
   UpdateCharacter "Brenna" 2 8 9 1 1;
   CombatApplyDamage "Brenna" 4;
   FullHeal "Aldric";
   DeleteCharacter "Brenna"].

(** A session state with two sheets, for the examples. *)
Definition camp : SessionState :=
  mkSession (Some [("Brenna"%string, brenna); ("Aldric"%string, armored)])
    None None.

(** A session state holding one slain character. *)
Definition graveyard : SessionState :=
  mkSession (Some [("Aldric"%string, fallen)]) None None.

End Pages.

Import Pages.

(** * Properties *)

(** ** Reading the guards of the method body *)

(** Up to [2^53] an integer is its own float. *)
Lemma round_to_float_small (a : Z) :
  0 <= a <= 2 ^ 53 -> round_to_float a = a.
Proof.
  intros (H0 & H1). unfold round_to_float. cbv zeta.
  destruct (Z.leb_spec (Z.log2 a + 1) 53) as [L | L]; [reflexivity|].
  assert (E : a = 2 ^ 53).
  { destruct (Z.eq_dec a (2 ^ 53)) as [E | N]; [exact E|].
    assert (Hlt : a < 2 ^ 53) by lia.
    destruct (Z.eq_dec a 0) as [-> | Nz]; [cbn in L; lia|].
    apply Z.log2_lt_pow2 in Hlt; lia. }
  subst a. vm_compute. reflexivity.
Qed.

(** Rounding never more than doubles. *)
Lemma round_to_float_bounds (a : Z) :
  0 <= a -> 0 <= round_to_float a <= 2 * a.
Proof.
  intros H0. unfold round_to_float. cbv zeta.
  destruct (Z.leb_spec (Z.log2 a + 1) 53) as [L | L]; [lia|].
  assert (Hp : 0 < a).
  { destruct (Z.eq_dec a 0) as [-> | N]; [cbn in L; lia | lia]. }
  set (s := Z.log2 a + 1 - 53) in *.
  assert (Hs : 0 < s) by lia.
  rewrite !Z.shiftl_mul_pow2, Z.shiftr_div_pow2 by lia.
  assert (P : 0 < 2 ^ s) by (apply Z.pow_pos_nonneg; lia).
  assert (Hle : 2 ^ s <= a).
  { transitivity (2 ^ Z.log2 a).
    - apply Z.pow_le_mono_r; lia.
    - apply Z.log2_spec, Hp. }
  pose proof (Z.mul_div_le a (2 ^ s) P) as Hq.
  assert (Hq0 : 0 <= a / 2 ^ s) by (apply Z.div_pos; lia).
  destruct ((_ >? _) || _); nia.
Qed.

(** While the vigor fits a float, the test of the source is the exact
    one. *)
Lemma at_least_half_spec (vigor_damage original_vigor : Z) :
  Z.abs original_vigor <= 2 ^ 53 ->
  at_least_half vigor_damage original_vigor = true
  <-> original_vigor <= 2 * vigor_damage.
Proof.
  intros Hb. unfold at_least_half, true_div_2. rewrite Qle_bool_iff.
  rewrite round_to_float_small by lia.
  unfold Qle, inject_Z; cbn [Qnum Qden].
  replace (Z.sgn original_vigor * Z.abs original_vigor) with original_vigor
    by (rewrite Z.mul_comm; symmetry; apply Z.abs_sgn).
  lia.
Qed.

(** Losing all of a vigor that is not negative is losing half of it or
    more, whatever the rounding. *)
Lemma at_least_half_whole (v : Z) : 0 <= v -> at_least_half v v = true.
Proof.
  intros H. unfold at_least_half, true_div_2. rewrite Qle_bool_iff.
  unfold Qle, inject_Z; cbn [Qnum Qden].
  rewrite Z.abs_eq by exact H.
  pose proof (round_to_float_bounds v H).
  destruct (Z.eq_dec v 0) as [-> | N]; [vm_compute; discriminate|].
  rewrite Z.sgn_pos by lia. lia.
Qed.

(** The threshold is exact: [original_vigor / 2] compared as a fraction is
    the same test as doubling the loss. *)
Lemma half_threshold_exact (vigor_damage original_vigor : Z) :
  (inject_Z original_vigor / 2 <= inject_Z vigor_damage)%Q
  <-> original_vigor <= 2 * vigor_damage.
Proof.
  unfold Qle, Qdiv, Qmult, Qinv, inject_Z; cbn [Qnum Qden Z.pos_sub].
  change (Z.pos (1 * 2)) with 2. lia.
Qed.

(** Reduces field reads of updated records and of stage results, and
    nothing else. *)
Ltac fields :=
  cbn [name vigor max_vigor clarity max_clarity spirit max_spirit guard
       max_guard armor is_mortally_wounded is_wounded is_impaired is_fatigued
       is_scarred is_alive notes profile_image
       set_vigor set_guard set_is_mortally_wounded set_is_wounded
       set_is_scarred set_is_alive
       gs_self gs_damage gs_log gs_scar_inflicted
       vs_self vs_vigor_damage vs_log vs_wounded vs_mortal_wound_inflicted
       original_damage final_damage damage_log wounded mortal_wound_inflicted
       scar_inflicted character_slain fst snd andb orb negb] in *.

(** Splits on the next test of the goal, turning an integer test into a
    hypothesis on [Z]. *)
Ltac split_test :=
  match goal with
  | |- context [if ?a >? ?b then _ else _] => destruct (Z.gtb_spec a b)
  | |- context [if (?a >? ?b) && _ then _ else _] =>
      destruct (Z.gtb_spec a b)
  | |- context [if at_least_half ?a ?b then _ else _] =>
      let E := fresh "Hhalf" in
      destruct (at_least_half a b) eqn:E
  | |- context [if ?a <=? ?b then _ else _] => destruct (Z.leb_spec a b)
  | |- context [if ?a =? ?b then _ else _] => destruct (Z.eqb_spec a b)
  end; fields.

Ltac split_tests := repeat split_test.

(** ** The stages, one at a time *)

Lemma armor_stage_damage (self : Character) (damage : Z) :
  fst (armor_stage self damage)
  = if armor self >? 0 then damage - Z.min damage (armor self) else damage.
Proof. unfold armor_stage. now destruct (armor self >? 0). Qed.

Lemma armor_stage_nonneg (self : Character) (damage : Z) :
  0 <= damage -> 0 <= fst (armor_stage self damage) <= damage.
Proof.
  intros Hd. rewrite armor_stage_damage. split_tests; lia.
Qed.

Lemma armor_stage_absorbed (self : Character) (damage : Z) :
  damage <= armor self ->
  fst (armor_stage self damage) <= 0
  /\ snd (armor_stage self damage)
     = if armor self >? 0 then [ArmorAbsorbed damage] else [].
Proof.
  intros Hd. unfold armor_stage.
  destruct (Z.gtb_spec (armor self) 0); fields; [|split; [lia | reflexivity]].
  replace (Z.min damage (armor self)) with damage by lia.
  split; [lia | reflexivity].
Qed.

Lemma armor_stage_no_scar (self : Character) (damage : Z) :
  filter is_scar_entry (snd (armor_stage self damage)) = [].
Proof. unfold armor_stage. now destruct (armor self >? 0). Qed.

(** The guard block does nothing on a spent hit or a spent guard. *)
Lemma guard_stage_idle (self : Character) (damage : Z) :
  damage <= 0 \/ guard self <= 0 ->
  guard_stage self damage = mkGuardStage self damage [] false.
Proof.
  intros H. unfold guard_stage.
  destruct (Z.gtb_spec damage 0), (Z.gtb_spec (guard self) 0);
    cbn [andb]; try reflexivity; lia.
Qed.

(** The guard block writes [guard] and [is_scarred] only. *)
Lemma guard_stage_frame (self : Character) (damage : Z) :
  let s := gs_self (guard_stage self damage) in
  set_is_scarred (set_guard s (guard self)) (is_scarred self) = self.
Proof.
  destruct self. unfold guard_stage. cbv zeta. fields.
  split_tests; reflexivity.
Qed.

Lemma guard_stage_vigor (self : Character) (damage : Z) :
  vigor (gs_self (guard_stage self damage)) = vigor self
  /\ max_vigor (gs_self (guard_stage self damage)) = max_vigor self
  /\ is_alive (gs_self (guard_stage self damage)) = is_alive self.
Proof.
  pose proof (guard_stage_frame self damage) as H. cbv zeta in H.
  rewrite <- H at 2 4 6. fields. auto.
Qed.

Lemma guard_stage_bounds (self : Character) (damage : Z) :
  let s := guard_stage self damage in
  (0 <= guard self -> 0 <= guard (gs_self s) <= guard self)
  /\ (0 <= damage -> 0 <= gs_damage s <= damage)
  /\ damage - gs_damage s = guard self - guard (gs_self s)
  /\ (0 <= guard self -> damage <= guard self -> gs_damage s <= 0).
Proof.
  unfold guard_stage. cbv zeta. split_tests; repeat split; intros; lia.
Qed.

(** The guard block raises the scar signal exactly on a drop from a positive
    guard to zero, sets the flag with it, and logs it once. *)
Lemma guard_stage_scar (self : Character) (damage : Z) :
  let s := guard_stage self damage in
  gs_scar_inflicted s = (0 <? guard self) && (guard (gs_self s) =? 0)
  /\ is_scarred (gs_self s) = is_scarred self || gs_scar_inflicted s
  /\ List.length (filter is_scar_entry (gs_log s))
     = (if gs_scar_inflicted s then 1 else 0)%nat.
Proof.
  unfold guard_stage. cbv zeta. split_tests;
    repeat split; rewrite ?orb_true_r, ?orb_false_r; auto;
    repeat match goal with
    | |- context [?a <? ?b] => destruct (Z.ltb_spec a b)
    | |- context [?a =? ?b] => destruct (Z.eqb_spec a b)
    end; cbn [andb]; try reflexivity; lia.
Qed.

(** The vigor block does nothing on a spent hit. *)
Lemma vigor_stage_idle (self : Character) (damage : Z) :
  damage <= 0 ->
  vigor_stage self damage = mkVigorStage self 0 [] false false.
Proof.
  intros H. unfold vigor_stage.
  destruct (Z.gtb_spec damage 0); [lia | reflexivity].
Qed.

(** The vigor block writes [vigor], [is_wounded], [is_mortally_wounded] and
    [is_alive] only. *)
Lemma vigor_stage_frame (self : Character) (damage : Z) :
  let s := vs_self (vigor_stage self damage) in
  set_vigor
    (set_is_wounded
       (set_is_mortally_wounded (set_is_alive s (is_alive self))
          (is_mortally_wounded self))
       (is_wounded self))
    (vigor self) = self.
Proof.
  destruct self. unfold vigor_stage. cbv zeta. fields.
  split_tests; reflexivity.
Qed.

Lemma vigor_stage_guard (self : Character) (damage : Z) :
  guard (vs_self (vigor_stage self damage)) = guard self
  /\ max_guard (vs_self (vigor_stage self damage)) = max_guard self
  /\ max_vigor (vs_self (vigor_stage self damage)) = max_vigor self
  /\ is_scarred (vs_self (vigor_stage self damage)) = is_scarred self.
Proof.
  pose proof (vigor_stage_frame self damage) as H. cbv zeta in H.
  rewrite <- H at 2 4 6 8. fields. auto.
Qed.

Lemma vigor_stage_no_scar (self : Character) (damage : Z) :
  filter is_scar_entry (vs_log (vigor_stage self damage)) = [].
Proof.
  unfold vigor_stage. cbv zeta. split_tests; reflexivity.
Qed.

(** What the vigor block reports, in terms of the record before and after. *)
Lemma vigor_stage_loss (self : Character) (damage : Z) :
  vs_vigor_damage (vigor_stage self damage)
  = vigor self - vigor (vs_self (vigor_stage self damage)).
Proof.
  unfold vigor_stage. cbv zeta. split_tests; lia.
Qed.

Lemma vigor_stage_bounds (self : Character) (damage : Z) :
  0 <= vigor self ->
  0 <= vigor (vs_self (vigor_stage self damage)) <= vigor self.
Proof.
  intros H. unfold vigor_stage. cbv zeta. split_tests; lia.
Qed.

Lemma vigor_stage_mortal (self : Character) (damage : Z) :
  vs_mortal_wound_inflicted (vigor_stage self damage) = true
  <-> 0 < damage
      /\ at_least_half (vs_vigor_damage (vigor_stage self damage))
           (vigor self) = true.
Proof.
  unfold vigor_stage.
  destruct (Z.gtb_spec damage 0); fields.
  - intuition lia.
  - split; [discriminate | lia].
Qed.

Lemma vigor_stage_mortal_flag (self : Character) (damage : Z) :
  is_mortally_wounded (vs_self (vigor_stage self damage))
  = is_mortally_wounded self
    || vs_mortal_wound_inflicted (vigor_stage self damage).
Proof.
  unfold vigor_stage. cbv zeta.
  split_tests; rewrite ?orb_true_r, ?orb_false_r; reflexivity.
Qed.

(** A hit that reaches a character without vigor. *)
Lemma vigor_stage_spent (self : Character) (damage : Z) :
  vigor self = 0 -> 0 < damage ->
  let s := vigor_stage self damage in
  is_mortally_wounded (vs_self s) = true /\ is_alive (vs_self s) = false
  /\ vs_mortal_wound_inflicted s = true /\ vs_wounded s = false
  /\ vigor (vs_self s) = 0.
Proof.
  intros Hv Hd. unfold vigor_stage. cbv zeta. rewrite Hv.
  replace (Z.min damage 0) with 0 by lia.
  change (at_least_half 0 0) with true.
  split_tests; try lia; repeat split.
Qed.

(** Life and death through the vigor block. *)
Lemma vigor_stage_alive (self : Character) (damage : Z) :
  let s := vs_self (vigor_stage self damage) in
  (is_alive s = true -> is_alive self = true)
  /\ (is_alive s = true -> 1 <= vigor self -> 1 <= vigor s)
  /\ (is_alive self = true -> is_alive s = false -> vigor s <= 0).
Proof.
  unfold vigor_stage. cbv zeta.
  split_tests; repeat split; intros; try congruence; try lia.
Qed.

(** ** [apply_damage] as the sequence of its blocks *)

Lemma apply_damage_eq (c : Character) (d : Z) :
  apply_damage c d
  = let g := guard_stage c (fst (armor_stage c d)) in
    let v := vigor_stage (gs_self g) (gs_damage g) in
    (vs_self v,
     mkReport d (d - gs_damage g)
       (snd (armor_stage c d) ++ gs_log g ++ vs_log v)
       (vs_wounded v) (vs_mortal_wound_inflicted v) (gs_scar_inflicted g)
       (negb (is_alive (vs_self v)))).
Proof. unfold apply_damage. now destruct (armor_stage c d). Qed.

Ltac open_damage :=
  rewrite ?apply_damage_eq; unfold damage_after_guard; cbv zeta;
  cbn [fst snd original_damage final_damage damage_log wounded
       mortal_wound_inflicted scar_inflicted character_slain].

(** ** The rule-book scenarios *)

Example scenario_A_log :
  map render (damage_log (snd (apply_damage armored 1)))
  = ["Armor absorbed 1 damage"%string].
Proof. vm_compute. reflexivity. Qed.

Example scenario_B :
  guard (fst (apply_damage (fighter 10 3 0) 3)) = 0
  /\ is_scarred (fst (apply_damage (fighter 10 3 0) 3)) = true
  /\ scar_inflicted (snd (apply_damage (fighter 10 3 0) 3)) = true
  /\ vigor (fst (apply_damage (fighter 10 3 0) 3)) = 10
  /\ wounded (snd (apply_damage (fighter 10 3 0) 3)) = false.
Proof. vm_compute. auto. Qed.

Example scenario_C :
  vigor (fst (apply_damage (fighter 10 0 0) 6)) = 4
  /\ wounded (snd (apply_damage (fighter 10 0 0) 6)) = true
  /\ mortal_wound_inflicted (snd (apply_damage (fighter 10 0 0) 6)) = true
  /\ is_alive (fst (apply_damage (fighter 10 0 0) 6)) = true.
Proof. vm_compute. auto. Qed.

Example scenario_D :
  vigor (fst (apply_damage (fighter 4 0 0) 4)) = 0
  /\ is_alive (fst (apply_damage (fighter 4 0 0) 4)) = false
  /\ character_slain (snd (apply_damage (fighter 4 0 0) 4)) = true
  /\ mortal_wound_inflicted (snd (apply_damage (fighter 4 0 0) 4)) = true.
Proof. vm_compute. auto. Qed.

Lemma armored_pools_ok : pools_ok armored.
Proof. unfold pools_ok, armored, fighter, new_character. fields. lia. Qed.

Lemma fallen_pools_ok : pools_ok fallen.
Proof. unfold pools_ok, fallen. fields. lia. Qed.

(** ** A hit of zero damage *)

(** C1, as stated, fails: the armor block runs whenever [armor > 0], also
    for a hit of zero, and logs "Armor absorbed 0 damage".  The record below
    is alive and within its pool bounds. *)
Lemma zero_damage_logs_armor :
  pools_ok armored /\ is_alive armored = true
  /\ damage_log (snd (apply_damage armored 0)) = [ArmorAbsorbed 0]
  /\ ~ zero_damage_is_silent armored.
Proof.
  split; [exact armored_pools_ok|].
  split; [reflexivity|]. split; [vm_compute; reflexivity|].
  intros (H & _). vm_compute in H. discriminate H.
Qed.

(** The fourth signal is the negation of [is_alive] after the call, so a
    record that was slain before a zero hit reports [character_slain]. *)
Lemma zero_damage_on_fallen :
  pools_ok fallen /\ character_slain (snd (apply_damage fallen 0)) = true.
Proof. split; [exact fallen_pools_ok | vm_compute; reflexivity]. Qed.

(** C1 (amended): a hit of zero damage leaves the record unchanged and
    reports zero original and final damage, no wound, no mortal wound and no
    scar; [character_slain] is the negation of the record's [is_alive], hence
    false for a living character; the log is empty when the character has no
    armor and is the single entry "Armor absorbed 0 damage" when [armor > 0];
    no guard or vigor entry is ever logged. *)
Theorem apply_damage_zero (c : Character) :
  apply_damage c 0
  = (c, mkReport 0 0 (if armor c >? 0 then [ArmorAbsorbed 0] else [])
          false false false (negb (is_alive c))).
Proof.
  rewrite apply_damage_eq. cbv zeta.
  assert (Ha : armor_stage c 0
               = (0, if armor c >? 0 then [ArmorAbsorbed 0] else [])).
  { unfold armor_stage. destruct (Z.gtb_spec (armor c) 0); [|reflexivity].
    replace (Z.min 0 (armor c)) with 0 by lia. reflexivity. }
  rewrite Ha. cbn [fst snd].
  rewrite guard_stage_idle by lia. fields.
  rewrite vigor_stage_idle by lia. fields.
  now rewrite app_nil_r.
Qed.

(** ** The mortal-wound threshold *)

(** C2, as stated, fails twice.  On a character without vigor a hit that
    never reaches the vigor block loses 0, which is half of 0, and raises no
    signal.  And past 53 bits the float quotient is not the fraction: with
    [2^53 + 1] vigor a loss of [2^52] is under the half, [2^52 + 1/2], yet
    the quotient rounds to [2^52] and the signal is raised. *)
Lemma mortal_wound_rule_fails :
  ~ mortal_at_half_or_more fallen 0
  /\ ~ mortal_at_half_or_more titan (2 ^ 52).
Proof.
  split; unfold mortal_at_half_or_more.
  - intros (_ & H).
    assert (F : mortal_wound_inflicted (snd (apply_damage fallen 0)) = true).
    { apply H. apply half_threshold_exact. vm_compute. discriminate. }
    vm_compute in F. discriminate F.
  - intros (H & _).
    assert (F : vigor titan
                <= 2 * (vigor titan
                        - vigor (fst (apply_damage titan (2 ^ 52))))).
    { apply half_threshold_exact. apply H. vm_compute. reflexivity. }
    vm_compute in F. apply F. reflexivity.
Qed.

(** C2 (amended): while the vigor held before the hit is at most [2^53] in
    magnitude, the mortal-wound signal is raised exactly when the vigor
    block runs (damage is left after armor and guard) and the vigor lost is
    at least half of the vigor held before the block, the half being the
    exact fraction; the flag of the record is its old value or that signal;
    and a character with no armor, no guard and 3 vigor hit for 1 is
    wounded but not mortally wounded (1 < 1.5). *)
Theorem mortal_wound_rule (c : Character) (d : Z) :
  Z.abs (vigor c) <= 2 ^ 53 ->
  let c' := fst (apply_damage c d) in
  let r := snd (apply_damage c d) in
  (mortal_wound_inflicted r = true
   <-> 0 < damage_after_guard c d
       /\ (inject_Z (vigor c) / 2 <= inject_Z (vigor c - vigor c'))%Q)
  /\ is_mortally_wounded c'
     = is_mortally_wounded c || mortal_wound_inflicted r
  /\ (armor c = 0 -> guard c = 0 -> vigor c = 3 -> d = 1 ->
      wounded r = true /\ mortal_wound_inflicted r = false).
Proof.
  intros Hb. cbv zeta. split; [| split].
  - open_damage.
    rewrite vigor_stage_mortal, vigor_stage_loss, half_threshold_exact.
    destruct (guard_stage_vigor c (fst (armor_stage c d))) as (-> & _).
    now rewrite at_least_half_spec by exact Hb.
  - open_damage. rewrite vigor_stage_mortal_flag. f_equal.
    pose proof (guard_stage_frame c (fst (armor_stage c d))) as F.
    cbv zeta in F.
    set (m := gs_self (guard_stage c (fst (armor_stage c d)))) in *.
    clearbody m. rewrite <- F. reflexivity.
  - intros Ha Hg Hv ->. open_damage.
    unfold armor_stage. rewrite Ha. cbn [Z.gtb Z.compare fst].
    rewrite guard_stage_idle by lia. fields.
    unfold vigor_stage. cbv zeta. rewrite Hv. split; reflexivity.
Qed.

Lemma mortal_wound_rule_witness :
  wounded (snd (apply_damage (fighter 3 0 0) 1)) = true
  /\ mortal_wound_inflicted (snd (apply_damage (fighter 3 0 0) 1)) = false.
Proof.
  assert (Hb : Z.abs (vigor (fighter 3 0 0)) <= 2 ^ 53)
    by (vm_compute; discriminate).
  apply (proj2 (proj2 (mortal_wound_rule (fighter 3 0 0) 1 Hb)));
    reflexivity.
Defined.

(** ** Scars *)

Lemma heal_vigor_frame (c : Character) (amount : Z) :
  is_scarred (heal_vigor c amount) = is_scarred c
  /\ is_alive (heal_vigor c amount) = is_alive c
  /\ guard (heal_vigor c amount) = guard c
  /\ max_guard (heal_vigor c amount) = max_guard c
  /\ max_vigor (heal_vigor c amount) = max_vigor c
  /\ vigor (heal_vigor c amount) = Z.min (vigor c + amount) (max_vigor c).
Proof.
  unfold heal_vigor. cbv zeta. fields.
  destruct (_ =? _); fields; repeat split.
Qed.

(** C3: [apply_damage] raises [scar_inflicted] exactly when [guard] goes from
    a positive value to zero within the call; [is_scarred] afterwards is its
    old value or that signal, so it is set on a scar and never cleared by a
    hit; the log holds one scar entry when the signal is raised and none
    otherwise.  [restore_guard], [heal_vigor] and the maxima update keep
    [is_scarred] whatever the amount; [reset_to_full] clears it. *)
Theorem scar_rule (c : Character) (d amount : Z)
    (mv mc ms mg a : Z) :
  let c' := fst (apply_damage c d) in
  let r := snd (apply_damage c d) in
  scar_inflicted r = (0 <? guard c) && (guard c' =? 0)
  /\ is_scarred c' = is_scarred c || scar_inflicted r
  /\ List.length (filter is_scar_entry (damage_log r))
     = (if scar_inflicted r then 1 else 0)%nat
  /\ is_scarred (restore_guard c amount) = is_scarred c
  /\ is_scarred (heal_vigor c amount) = is_scarred c
  /\ is_scarred (set_maximums c mv mc ms mg a) = is_scarred c
  /\ is_scarred (reset_to_full c) = false.
Proof.
  cbv zeta. open_damage.
  set (d1 := fst (armor_stage c d)).
  destruct (guard_stage_scar c d1) as (Hs & Hf & Hl).
  destruct (vigor_stage_guard (gs_self (guard_stage c d1))
              (gs_damage (guard_stage c d1))) as (Hg & _ & _ & Hsc).
  rewrite Hg, Hsc, !filter_app, armor_stage_no_scar, vigor_stage_no_scar,
    app_nil_r.
  cbn [app]. repeat split; auto.
  apply heal_vigor_frame.
Qed.

(** ** Pool bounds *)

Lemma apply_damage_pools (c : Character) (d : Z) :
  pools_ok c -> pools_ok (fst (apply_damage c d)).
Proof.
  unfold pools_ok. intros (Hv & Hg). open_damage.
  set (d1 := fst (armor_stage c d)).
  destruct (guard_stage_bounds c d1) as (Bg & _).
  destruct (guard_stage_vigor c d1) as (Gv & Gm & _).
  pose proof (guard_stage_frame c d1) as Gf. cbv zeta in Gf.
  assert (Gmg : max_guard (gs_self (guard_stage c d1)) = max_guard c)
    by (rewrite <- Gf at 2; reflexivity).
  set (s := gs_self (guard_stage c d1)) in *.
  destruct (vigor_stage_guard s (gs_damage (guard_stage c d1)))
    as (Vg & Vmg & Vmv & _).
  pose proof (vigor_stage_bounds s (gs_damage (guard_stage c d1))) as Vb.
  rewrite Vg, Vmg, Vmv. lia.
Qed.

(** C4: from a record whose vigor and guard lie between zero and their
    maxima, each of [apply_damage], [heal_vigor], [restore_guard],
    [reset_to_full] and the maxima update (with amounts and new maxima that
    are not negative) ends in a record whose vigor and guard lie between
    zero and their maxima. *)
Theorem pools_preserved (c : Character) (amount : Z)
    (mv mc ms mg a : Z) :
  pools_ok c -> 0 <= amount -> 0 <= mv -> 0 <= mg ->
  pools_ok (fst (apply_damage c amount))
  /\ pools_ok (heal_vigor c amount)
  /\ pools_ok (restore_guard c amount)
  /\ pools_ok (reset_to_full c)
  /\ pools_ok (set_maximums c mv mc ms mg a).
Proof.
  intros H Ha Hmv Hmg. split; [now apply apply_damage_pools|].
  unfold pools_ok in *. split.
  - destruct (heal_vigor_frame c amount) as (_ & _ & -> & -> & -> & ->). lia.
  - unfold restore_guard, reset_to_full, set_maximums. fields. lia.
Qed.

Lemma pools_preserved_witness :
  pools_ok (fst (apply_damage armored 4))
  /\ pools_ok (heal_vigor armored 4)
  /\ pools_ok (restore_guard armored 4)
  /\ pools_ok (reset_to_full armored)
  /\ pools_ok (set_maximums armored 6 10 10 2 0).
Proof.
  apply (pools_preserved armored 4 6 10 10 2 0);
    [exact armored_pools_ok | lia | lia | lia].
Defined.

(** ** The reported final damage *)

(** [final_damage] is the original damage minus the local [damage] as the
    guard block left it: the amount taken by armor and guard. *)
Lemma final_damage_eq (c : Character) (d : Z) :
  final_damage (snd (apply_damage c d)) = d - damage_after_guard c d
  /\ original_damage (snd (apply_damage c d)) = d.
Proof. open_damage. auto. Qed.

Lemma damage_after_guard_nonneg (c : Character) (d : Z) :
  0 <= d -> 0 <= damage_after_guard c d <= d.
Proof.
  intros Hd. unfold damage_after_guard.
  pose proof (armor_stage_nonneg c d Hd) as Ha.
  destruct (guard_stage_bounds c (fst (armor_stage c d))) as (_ & Hb & _).
  lia.
Qed.

Lemma final_damage_le (c : Character) (d : Z) :
  0 <= d ->
  final_damage (snd (apply_damage c d))
  <= original_damage (snd (apply_damage c d)).
Proof.
  intros Hd. destruct (final_damage_eq c d) as (-> & ->).
  pose proof (damage_after_guard_nonneg c d Hd). lia.
Qed.

(** When armor and guard together can take the hit, the whole of it is
    reported. *)
Lemma final_damage_full (c : Character) (d : Z) :
  0 <= d -> 0 <= armor c -> 0 <= guard c -> d <= armor c + guard c ->
  final_damage (snd (apply_damage c d)) = d.
Proof.
  intros Hd Ha Hg Hcap. destruct (final_damage_eq c d) as (-> & _).
  pose proof (damage_after_guard_nonneg c d Hd) as Hn.
  unfold damage_after_guard in *.
  destruct (guard_stage_bounds c (fst (armor_stage c d))) as (_ & _ & _ & Hz).
  rewrite armor_stage_damage in *.
  destruct (Z.gtb_spec (armor c) 0); specialize (Hz Hg); lia.
Qed.

(** C5: the vigor block does not subtract the vigor it removes from the
    local [damage], so a hit that reaches vigor is reported short.  A
    character with 10 vigor, no guard and no armor has capacity for a hit
    of 6 and loses 6 vigor, while the report gives a final damage of 0. *)
Theorem final_damage_misses_vigor :
  pools_ok (fighter 10 0 0)
  /\ 6 <= armor (fighter 10 0 0) + guard (fighter 10 0 0)
          + vigor (fighter 10 0 0)
  /\ vigor (fst (apply_damage (fighter 10 0 0) 6)) = 4
  /\ original_damage (snd (apply_damage (fighter 10 0 0) 6)) = 6
  /\ final_damage (snd (apply_damage (fighter 10 0 0) 6)) = 0.
Proof.
  split; [unfold pools_ok, fighter, new_character; fields; lia|].
  split; [unfold fighter, new_character; fields; lia|].
  vm_compute. auto.
Qed.

(** ** A hit that armor takes whole *)

(** C6: on a living character, a hit no larger than the armor leaves the
    record as it was (guard, vigor and every flag included), raises none of
    the four signals, and logs nothing but the armor entry. *)
Theorem armor_absorbs_all (c : Character) (d : Z) :
  is_alive c = true -> d <= armor c ->
  let c' := fst (apply_damage c d) in
  let r := snd (apply_damage c d) in
  c' = c
  /\ wounded r = false /\ mortal_wound_inflicted r = false
  /\ scar_inflicted r = false /\ character_slain r = false
  /\ damage_log r = if armor c >? 0 then [ArmorAbsorbed d] else [].
Proof.
  intros Hal Hd. cbv zeta. open_damage.
  destruct (armor_stage_absorbed c d Hd) as (Hz & ->).
  rewrite guard_stage_idle by auto. fields.
  rewrite vigor_stage_idle by auto. fields.
  rewrite Hal, app_nil_r. repeat split.
Qed.

Lemma armor_absorbs_all_witness :
  fst (apply_damage armored 1) = armored
  /\ wounded (snd (apply_damage armored 1)) = false
  /\ mortal_wound_inflicted (snd (apply_damage armored 1)) = false
  /\ scar_inflicted (snd (apply_damage armored 1)) = false
  /\ character_slain (snd (apply_damage armored 1)) = false
  /\ damage_log (snd (apply_damage armored 1)) = [ArmorAbsorbed 1].
Proof.
  apply (armor_absorbs_all armored 1);
    [reflexivity | unfold armored, fighter, new_character; fields; lia].
Defined.

(** ** Healing *)

(** C8: [heal_vigor] sets vigor to [min (vigor + amount) max_vigor]; when
    that value is [max_vigor] both [is_wounded] and [is_mortally_wounded]
    are cleared, and otherwise both keep their values. *)
Theorem heal_vigor_spec (c : Character) (amount : Z) :
  let c' := heal_vigor c amount in
  vigor c' = Z.min (vigor c + amount) (max_vigor c)
  /\ is_wounded c'
     = (if vigor c' =? max_vigor c then false else is_wounded c)
  /\ is_mortally_wounded c'
     = (if vigor c' =? max_vigor c then false else is_mortally_wounded c).
Proof.
  cbv zeta. destruct (heal_vigor_frame c amount) as (_ & _ & _ & _ & _ & ->).
  unfold heal_vigor. cbv zeta. fields.
  destruct (_ =? _); fields; repeat split.
Qed.

(** ** What a hit leaves alone *)

(** C9: [apply_damage] keeps the armor, the name, clarity and spirit, the
    four maxima, the notes and the profile image; the two flags no rule
    mentions, [is_impaired] and [is_fatigued], are kept as well. *)
Theorem apply_damage_frame (c : Character) (d : Z) :
  let c' := fst (apply_damage c d) in
  armor c' = armor c /\ name c' = name c
  /\ clarity c' = clarity c /\ spirit c' = spirit c
  /\ max_vigor c' = max_vigor c /\ max_clarity c' = max_clarity c
  /\ max_spirit c' = max_spirit c /\ max_guard c' = max_guard c
  /\ notes c' = notes c /\ profile_image c' = profile_image c
  /\ is_impaired c' = is_impaired c /\ is_fatigued c' = is_fatigued c.
Proof.
  cbv zeta. open_damage.
  set (g := guard_stage c (fst (armor_stage c d))).
  pose proof (guard_stage_frame c (fst (armor_stage c d))) as Hg.
  pose proof (vigor_stage_frame (gs_self g) (gs_damage g)) as Hv.
  cbv zeta in Hg, Hv. fold g in Hg.
  set (s := vs_self (vigor_stage (gs_self g) (gs_damage g))) in *.
  clearbody s g.
  rewrite <- Hg. fields. rewrite <- Hv. fields. repeat split.
Qed.

(** ** A hit on a character without vigor *)

(** C10: when the character has no vigor left and damage remains after the
    armor and guard blocks, the hit removes no vigor and does not wound, yet
    it inflicts a mortal wound (0 is at least half of 0) and the character
    is slain: both flags are set on the record and both signals raised. *)
Theorem hit_without_vigor (c : Character) (d : Z) :
  vigor c = 0 -> 0 < damage_after_guard c d ->
  let c' := fst (apply_damage c d) in
  let r := snd (apply_damage c d) in
  is_mortally_wounded c' = true /\ is_alive c' = false
  /\ mortal_wound_inflicted r = true /\ character_slain r = true
  /\ vigor c - vigor c' = 0 /\ wounded r = false.
Proof.
  intros Hv Hrem. cbv zeta. unfold damage_after_guard in Hrem. open_damage.
  set (g := guard_stage c (fst (armor_stage c d))) in *.
  assert (Hgv : vigor (gs_self g) = 0).
  { destruct (guard_stage_vigor c (fst (armor_stage c d))) as (E & _).
    fold g in E. congruence. }
  destruct (vigor_stage_spent (gs_self g) (gs_damage g) Hgv Hrem)
    as (H1 & H2 & H3 & H4 & H5).
  rewrite H1, H2, H3, H4, H5, Hv. repeat split.
Qed.

Lemma hit_without_vigor_witness :
  is_mortally_wounded (fst (apply_damage fallen 3)) = true
  /\ is_alive (fst (apply_damage fallen 3)) = false
  /\ mortal_wound_inflicted (snd (apply_damage fallen 3)) = true
  /\ character_slain (snd (apply_damage fallen 3)) = true
  /\ vigor fallen - vigor (fst (apply_damage fallen 3)) = 0
  /\ wounded (snd (apply_damage fallen 3)) = false.
Proof.
  apply (hit_without_vigor fallen 3); [reflexivity | vm_compute; reflexivity].
Defined.

(** ** Life and death along a session *)

Lemma run_snoc (c : Character) (ops : list Op) (o : Op) :
  run c (ops ++ [o]) = step (run c ops) o.
Proof. unfold run. now rewrite fold_left_app. Qed.

Lemma apply_damage_alive (s : Character) (d : Z) :
  let s' := fst (apply_damage s d) in
  max_vigor s' = max_vigor s
  /\ (is_alive s' = true -> is_alive s = true)
  /\ (is_alive s' = true -> 1 <= vigor s -> 1 <= vigor s')
  /\ (is_alive s = true -> is_alive s' = false -> vigor s' <= 0).
Proof.
  cbv zeta. open_damage.
  set (g := guard_stage s (fst (armor_stage s d))).
  destruct (guard_stage_vigor s (fst (armor_stage s d))) as (Hv & Hm & Ha).
  fold g in Hv, Hm, Ha.
  destruct (vigor_stage_guard (gs_self g) (gs_damage g)) as (_ & _ & Vm & _).
  destruct (vigor_stage_alive (gs_self g) (gs_damage g)) as (Va & Vv & Vd).
  rewrite Hv, Ha in *. rewrite Vm, Hm. auto.
Qed.

Lemma step_keeps_dead (s : Character) (o : Op) :
  is_alive s = false -> is_reset o = false -> is_alive (step s o) = false.
Proof.
  intros Hs Ho. destruct o; cbn [step is_reset] in *; try discriminate.
  - destruct (apply_damage_alive s damage) as (_ & H & _).
    destruct (is_alive (fst (apply_damage s damage))); auto.
    now rewrite <- Hs, H.
  - now destruct (heal_vigor_frame s amount) as (_ & -> & _).
  - exact Hs.
  - exact Hs.
Qed.

Lemma step_alive_has_vigor (s : Character) (o : Op) :
  alive_has_vigor s -> valid_op o = true -> alive_has_vigor (step s o).
Proof.
  intros (Hm & Hv) Ho. unfold alive_has_vigor.
  destruct o; cbn [step valid_op] in *.
  - destruct (apply_damage_alive s damage) as (Em & Ea & Ev & _).
    rewrite Em. split; auto.
  - destruct (heal_vigor_frame s amount) as (_ & -> & _ & _ & -> & ->).
    apply Z.leb_le in Ho.
    split; [auto | intros H; apply Hv in H; lia].
  - unfold restore_guard. fields. auto.
  - unfold reset_to_full. fields. split; [auto | intros _; lia].
  - rewrite !andb_true_iff, !Z.leb_le in Ho.
    unfold set_maximums. fields.
    split; [lia | intros H; apply Hv in H; lia].
Qed.

Lemma run_alive_has_vigor (c : Character) (ops : list Op) :
  alive_has_vigor c -> forallb valid_op ops = true ->
  alive_has_vigor (run c ops).
Proof.
  intros Hc. induction ops as [|o ops IH] using rev_ind; intros Hops.
  - exact Hc.
  - rewrite forallb_app in Hops. apply andb_true_iff in Hops as (H1 & H2).
    cbn [forallb] in H2. rewrite andb_true_r in H2.
    rewrite run_snoc. apply step_alive_has_vigor; auto.
Qed.

Lemma step_dies (s : Character) (o : Op) :
  is_alive s = true -> is_alive (step s o) = false -> vigor (step s o) <= 0.
Proof.
  intros Hs Hd. destruct o; cbn [step] in *.
  - now apply apply_damage_alive.
  - destruct (heal_vigor_frame s amount) as (_ & E & _). congruence.
  - unfold restore_guard in Hd. fields. congruence.
  - unfold reset_to_full in Hd. fields. congruence.
  - unfold set_maximums in Hd. fields. congruence.
Qed.

(** C7: start from a living character with positive vigor and run any
    sequence of valid operations.  The character is then dead exactly when,
    at some point of the sequence, vigor was at zero and no [reset_to_full]
    came afterwards.  [heal_vigor] never changes [is_alive], whatever vigor
    it restores; an operation that turns a dead character alive is
    [reset_to_full], which always does. *)
Theorem alive_tracks_vigor (c : Character) (ops : list Op) :
  is_alive c = true -> 1 <= vigor c <= max_vigor c ->
  forallb valid_op ops = true ->
  (is_alive (run c ops) = false <-> spent_since_reset c ops)
  /\ (forall s amount, is_alive (heal_vigor s amount) = is_alive s)
  /\ (forall s o, is_alive s = false -> is_alive (step s o) = true ->
                  o = ResetToFull)
  /\ (forall s, is_alive (reset_to_full s) = true).
Proof.
  intros Hal Hv Hops.
  assert (Hinv : alive_has_vigor c) by (split; [lia | intros _; lia]).
  split; [| split; [| split; [| reflexivity]]].
  - unfold spent_since_reset. revert Hops.
    induction ops as [|o ops IH] using rev_ind; intros Hops.
    + unfold run at 1. cbn [fold_left]. rewrite Hal. split; [discriminate|].
      intros (pre & post & E & Hz & _).
      symmetry in E. apply app_eq_nil in E as (-> & _).
      unfold run in Hz. cbn [fold_left] in Hz. lia.
    + rewrite forallb_app in Hops. apply andb_true_iff in Hops as (H1 & H2).
      cbn [forallb] in H2. rewrite andb_true_r in H2. specialize (IH H1).
      rewrite run_snoc. split.
      * intros Hd. destruct (is_alive (run c ops)) eqn:Ea.
        -- exists (ops ++ [o]), []. rewrite app_nil_r, run_snoc.
           repeat split. now apply step_dies.
        -- destruct (proj1 IH eq_refl) as (pre & post & -> & Hz & Hr).
           destruct (is_reset o) eqn:Eo.
           ++ destruct o; discriminate.
           ++ exists pre, (post ++ [o]). rewrite app_assoc.
              repeat split; auto.
              rewrite existsb_app, Hr. cbn [existsb orb]. now rewrite Eo.
      * intros (pre & post & E & Hz & Hr).
        destruct post as [|p post _] using rev_ind.
        -- rewrite app_nil_r in E. subst pre. rewrite run_snoc in Hz.
           pose proof (run_alive_has_vigor c (ops ++ [o]) Hinv) as Hi.
           rewrite forallb_app, H1 in Hi. cbn [forallb andb] in Hi.
           rewrite H2 in Hi.
           specialize (Hi eq_refl) as (_ & Hi). rewrite run_snoc in Hi.
           destruct (is_alive (step (run c ops) o)); auto.
           specialize (Hi eq_refl). lia.
        -- rewrite app_assoc in E.
           apply app_inj_tail in E as (-> & ->).
           rewrite existsb_app in Hr. apply orb_false_iff in Hr as (Hr & Hp).
           cbn [existsb] in Hp. rewrite orb_false_r in Hp.
           apply step_keeps_dead; auto.
           apply IH. now exists pre, post.
  - intros s amount. now destruct (heal_vigor_frame s amount) as (_ & -> & _).
  - intros s o Hs Ho. destruct (is_reset o) eqn:Eo.
    + now destruct o.
    + rewrite (step_keeps_dead s o Hs Eo) in Ho. discriminate.
Qed.

Lemma alive_tracks_vigor_witness :
  is_alive (run (fighter 4 3 1) [ApplyDamage 9; HealVigor 4; RestoreGuard 2])
  = false
  <-> spent_since_reset (fighter 4 3 1)
        [ApplyDamage 9; HealVigor 4; RestoreGuard 2].
Proof.
  apply (alive_tracks_vigor (fighter 4 3 1)
           [ApplyDamage 9; HealVigor 4; RestoreGuard 2]);
    [reflexivity | unfold fighter, new_character; fields; lia | reflexivity].
Defined.

(** * More on the damage rules *)

(** Decides the integer tests left in a goal about booleans. *)
Ltac bool_arith :=
  repeat match goal with
  | |- context [?a <? ?b] => destruct (Z.ltb_spec a b)
  | |- context [?a <=? ?b] => destruct (Z.leb_spec a b)
  | |- context [?a =? ?b] => destruct (Z.eqb_spec a b)
  | |- context [?a >? ?b] => destruct (Z.gtb_spec a b)
  end;
  cbn [andb orb negb];
  rewrite ?orb_true_r, ?orb_false_r, ?andb_true_r, ?andb_false_r;
  try reflexivity; try lia.

(** ** The blocks in closed form *)

Lemma armor_stage_closed (self : Character) (damage : Z) :
  0 <= armor self -> 0 <= damage ->
  fst (armor_stage self damage) = Z.max 0 (damage - armor self).
Proof.
  intros Ha Hd. rewrite armor_stage_damage. split_tests; lia.
Qed.

Lemma guard_stage_closed (self : Character) (damage : Z) :
  0 <= guard self -> 0 <= damage ->
  guard (gs_self (guard_stage self damage))
  = guard self - Z.min damage (guard self)
  /\ gs_damage (guard_stage self damage)
     = damage - Z.min damage (guard self).
Proof.
  intros Hg Hd. unfold guard_stage. cbv zeta. split_tests; lia.
Qed.

Lemma vigor_stage_closed (self : Character) (damage : Z) :
  0 <= vigor self -> 0 <= damage ->
  vigor (vs_self (vigor_stage self damage))
  = vigor self - Z.min damage (vigor self).
Proof.
  intros Hv Hd. unfold vigor_stage. cbv zeta. split_tests; lia.
Qed.

(** The flags the vigor block writes, for any input. *)
Lemma vigor_stage_flags (self : Character) (damage : Z) :
  let s := vigor_stage self damage in
  vs_wounded s = (0 <? damage) && (0 <? Z.min damage (vigor self))
  /\ is_wounded (vs_self s) = is_wounded self || vs_wounded s
  /\ is_mortally_wounded (vs_self s)
     = is_mortally_wounded self || vs_mortal_wound_inflicted s
  /\ is_alive (vs_self s)
     = is_alive self
       && negb ((0 <? damage) && (vigor (vs_self s) <=? 0)).
Proof.
  unfold vigor_stage. cbv zeta. split_tests; repeat split; bool_arith.
Qed.

(** The guard block leaves the wound flags alone. *)
Lemma guard_stage_wounds (self : Character) (damage : Z) :
  is_wounded (gs_self (guard_stage self damage)) = is_wounded self
  /\ is_mortally_wounded (gs_self (guard_stage self damage))
     = is_mortally_wounded self.
Proof.
  pose proof (guard_stage_frame self damage) as H. cbv zeta in H.
  rewrite <- H at 2 4. fields. auto.
Qed.

(** Guard and vigor after a hit, and the damage that gets past the guard,
    for a sheet without negative values. *)
Lemma hit_pools (c : Character) (d : Z) :
  0 <= d -> 0 <= armor c -> 0 <= guard c -> 0 <= vigor c ->
  guard (fst (apply_damage c d))
  = guard c - Z.min (Z.max 0 (d - armor c)) (guard c)
  /\ vigor (fst (apply_damage c d))
     = vigor c - Z.min (Z.max 0 (d - armor c - guard c)) (vigor c)
  /\ damage_after_guard c d = Z.max 0 (d - armor c - guard c).
Proof.
  intros Hd Ha Hg Hv. open_damage.
  pose proof (armor_stage_closed c d Ha Hd) as E1.
  pose proof (armor_stage_nonneg c d Hd) as N1.
  set (d1 := fst (armor_stage c d)) in *.
  destruct (guard_stage_closed c d1 Hg (proj1 N1)) as (E2 & E3).
  destruct (guard_stage_vigor c d1) as (Gv & _).
  set (g := guard_stage c d1) in *.
  destruct (vigor_stage_guard (gs_self g) (gs_damage g)) as (Vg & _).
  assert (N2 : 0 <= gs_damage g) by lia.
  assert (N3 : 0 <= vigor (gs_self g)) by lia.
  pose proof (vigor_stage_closed (gs_self g) (gs_damage g) N3 N2) as E4.
  rewrite Vg, E4, E2, E3, Gv, E1. lia.
Qed.

Lemma armor_stage_nonpositive (self : Character) (damage : Z) :
  damage <= 0 -> fst (armor_stage self damage) <= 0.
Proof.
  intros Hd. rewrite armor_stage_damage. split_tests; lia.
Qed.

Lemma armor_stage_log (self : Character) (damage : Z) :
  existsb is_wounded_entry (snd (armor_stage self damage)) = false
  /\ existsb is_mortal_entry (snd (armor_stage self damage)) = false
  /\ existsb is_slain_entry (snd (armor_stage self damage)) = false
  /\ existsb is_scar_entry (snd (armor_stage self damage)) = false
  /\ (List.length (snd (armor_stage self damage)) <= 1)%nat.
Proof.
  unfold armor_stage. destruct (armor self >? 0); cbn; repeat split; lia.
Qed.

Lemma guard_stage_log (self : Character) (damage : Z) :
  let s := guard_stage self damage in
  existsb is_wounded_entry (gs_log s) = false
  /\ existsb is_mortal_entry (gs_log s) = false
  /\ existsb is_slain_entry (gs_log s) = false
  /\ existsb is_scar_entry (gs_log s) = gs_scar_inflicted s
  /\ (List.length (gs_log s) <= 2)%nat.
Proof.
  unfold guard_stage. cbv zeta. split_tests; cbn; repeat split; lia.
Qed.

Lemma vigor_stage_log (self : Character) (damage : Z) :
  let s := vigor_stage self damage in
  existsb is_wounded_entry (vs_log s) = vs_wounded s
  /\ existsb is_mortal_entry (vs_log s) = vs_mortal_wound_inflicted s
  /\ existsb is_slain_entry (vs_log s)
     = (0 <? damage) && (vigor (vs_self s) <=? 0)
  /\ existsb is_scar_entry (vs_log s) = false
  /\ (List.length (vs_log s) <= 4)%nat.
Proof.
  unfold vigor_stage. cbv zeta.
  split_tests; cbn [existsb app is_wounded_entry is_mortal_entry
                    is_slain_entry is_scar_entry orb List.length];
    repeat split; bool_arith.
Qed.

(** The guard block never adds guard, and lets damage through only once the
    guard is down. *)
Lemma guard_stage_drains (self : Character) (damage : Z) :
  guard (gs_self (guard_stage self damage)) <= guard self
  /\ (0 < gs_damage (guard_stage self damage) ->
      guard (gs_self (guard_stage self damage)) <= 0).
Proof.
  unfold guard_stage. cbv zeta. split_tests; split; intros; lia.
Qed.

Lemma vigor_stage_changes (self : Character) (damage : Z) :
  vigor (vs_self (vigor_stage self damage)) <> vigor self -> 0 < damage.
Proof.
  intros H. destruct (Z.lt_ge_cases 0 damage) as [L | L]; [exact L|].
  rewrite vigor_stage_idle in H by lia. now fields.
Qed.

(** The signals and flags of a hit, in terms of the damage that gets past
    the guard. *)
Lemma hit_flags (c : Character) (d : Z) :
  let c' := fst (apply_damage c d) in
  let r := snd (apply_damage c d) in
  let rest := damage_after_guard c d in
  wounded r = (0 <? rest) && (0 <? Z.min rest (vigor c))
  /\ is_wounded c' = is_wounded c || wounded r
  /\ is_mortally_wounded c'
     = is_mortally_wounded c || mortal_wound_inflicted r
  /\ is_alive c' = is_alive c && negb ((0 <? rest) && (vigor c' <=? 0))
  /\ character_slain r = negb (is_alive c')
  /\ scar_inflicted r = (0 <? guard c) && (guard c' =? 0)
  /\ is_scarred c' = is_scarred c || scar_inflicted r
  /\ armor c' = armor c.
Proof.
  cbv zeta. open_damage.
  set (d1 := fst (armor_stage c d)).
  destruct (guard_stage_vigor c d1) as (Gv & _ & Ga).
  destruct (guard_stage_wounds c d1) as (Gw & Gm).
  destruct (guard_stage_scar c d1) as (Gs & Gf & _).
  pose proof (guard_stage_frame c d1) as Gfr. cbv zeta in Gfr.
  assert (Gar : armor (gs_self (guard_stage c d1)) = armor c)
    by (rewrite <- Gfr at 2; reflexivity).
  set (g := guard_stage c d1) in *.
  destruct (vigor_stage_flags (gs_self g) (gs_damage g))
    as (Vw & Vfw & Vfm & Va).
  destruct (vigor_stage_guard (gs_self g) (gs_damage g))
    as (Vg & _ & _ & Vs).
  pose proof (vigor_stage_frame (gs_self g) (gs_damage g)) as Vfr.
  cbv zeta in Vfr.
  assert (Var : armor (vs_self (vigor_stage (gs_self g) (gs_damage g)))
                = armor (gs_self g))
    by (rewrite <- Vfr at 2; reflexivity).
  rewrite Vw, Vfw, Vfm, Va, Vg, Vs, Var, Gv, Ga, Gw, Gm, Gs, Gf, Gar, Vw.
  repeat split; try reflexivity; congruence.
Qed.

(** ** What a hit does, read from the sheet *)

(** X1: on a sheet without negative values a hit of [d >= 0] leaves
    [guard = max 0 (guard - max 0 (d - armor))] and
    [vigor = max 0 (vigor - max 0 (d - armor - guard))]: armor is taken off
    first, then guard, then vigor, none of them going below zero. *)
Theorem hit_closed_form (c : Character) (d : Z) :
  0 <= d -> 0 <= armor c -> 0 <= guard c -> 0 <= vigor c ->
  guard (fst (apply_damage c d))
  = Z.max 0 (guard c - Z.max 0 (d - armor c))
  /\ vigor (fst (apply_damage c d))
     = Z.max 0 (vigor c - Z.max 0 (d - armor c - guard c)).
Proof.
  intros Hd Ha Hg Hv.
  destruct (hit_pools c d Hd Ha Hg Hv) as (-> & -> & _). lia.
Qed.

Lemma hit_closed_form_witness :
  guard (fst (apply_damage armored 7))
  = Z.max 0 (guard armored - Z.max 0 (7 - armor armored))
  /\ vigor (fst (apply_damage armored 7))
     = Z.max 0 (vigor armored
                - Z.max 0 (7 - armor armored - guard armored)).
Proof.
  apply (hit_closed_form armored 7);
    unfold armored, fighter, new_character; fields; lia.
Defined.

(** X2: what a hit takes in all (the part armor stops, the guard lost and
    the vigor lost) is the damage capped by armor + guard + vigor, while the
    [final_damage] of the report is the damage capped by armor + guard
    only. *)
Theorem hit_accounting (c : Character) (d : Z) :
  0 <= d -> 0 <= armor c -> 0 <= guard c -> 0 <= vigor c ->
  Z.min d (armor c)
  + (guard c - guard (fst (apply_damage c d)))
  + (vigor c - vigor (fst (apply_damage c d)))
  = Z.min d (armor c + guard c + vigor c)
  /\ final_damage (snd (apply_damage c d)) = Z.min d (armor c + guard c).
Proof.
  intros Hd Ha Hg Hv.
  destruct (hit_pools c d Hd Ha Hg Hv) as (-> & -> & E).
  destruct (final_damage_eq c d) as (-> & _). rewrite E. lia.
Qed.

Lemma hit_accounting_witness :
  Z.min 7 (armor armored)
  + (guard armored - guard (fst (apply_damage armored 7)))
  + (vigor armored - vigor (fst (apply_damage armored 7)))
  = Z.min 7 (armor armored + guard armored + vigor armored)
  /\ final_damage (snd (apply_damage armored 7))
     = Z.min 7 (armor armored + guard armored).
Proof.
  apply (hit_accounting armored 7);
    unfold armored, fighter, new_character; fields; lia.
Defined.

(** A hit of zero or less gets past no block. *)
Lemma hit_nonpositive (c : Character) (d : Z) :
  d <= 0 ->
  apply_damage c d
  = (c, mkReport d (d - fst (armor_stage c d)) (snd (armor_stage c d))
          false false false (negb (is_alive c))).
Proof.
  intros Hd. rewrite apply_damage_eq. cbv zeta.
  pose proof (armor_stage_nonpositive c d Hd) as Ha.
  rewrite guard_stage_idle by auto. fields.
  rewrite vigor_stage_idle by auto. fields.
  now rewrite app_nil_r.
Qed.

(** X3: a living character with vigor left, no negative armor and no
    negative guard is slain by a hit exactly when the damage reaches
    armor + guard + vigor. *)
Theorem hit_slays_iff (c : Character) (d : Z) :
  is_alive c = true -> 0 <= armor c -> 0 <= guard c -> 1 <= vigor c ->
  (is_alive (fst (apply_damage c d)) = false
   <-> armor c + guard c + vigor c <= d)
  /\ character_slain (snd (apply_damage c d))
     = negb (is_alive (fst (apply_damage c d))).
Proof.
  intros Hal Ha Hg Hv.
  destruct (hit_flags c d) as (_ & _ & _ & Ea & Es & _).
  cbv zeta in Ea, Es. split; [|exact Es].
  destruct (Z.le_gt_cases d 0) as [Hd | Hd].
  - rewrite (hit_nonpositive c d Hd). fields. rewrite Hal.
    split; [discriminate | lia].
  - assert (Hv0 : 0 <= vigor c) by lia.
    destruct (hit_pools c d (Z.lt_le_incl _ _ Hd) Ha Hg Hv0)
      as (_ & Ev & Er).
    rewrite Ea, Hal, Ev, Er. cbn [andb].
    rewrite negb_false_iff, andb_true_iff, Z.ltb_lt, Z.leb_le. lia.
Qed.

Lemma hit_slays_iff_witness :
  (is_alive (fst (apply_damage armored 15)) = false
   <-> armor armored + guard armored + vigor armored <= 15)
  /\ character_slain (snd (apply_damage armored 15))
     = negb (is_alive (fst (apply_damage armored 15))).
Proof.
  apply (hit_slays_iff armored 15);
    [reflexivity | | | ]; unfold armored, fighter, new_character; fields; lia.
Defined.

(** X4: on a sheet without negative values, a hit scars exactly when there
    is guard and the damage reaches armor + guard, and wounds exactly when
    there is vigor and the damage exceeds armor + guard. *)
Theorem hit_thresholds (c : Character) (d : Z) :
  0 <= d -> 0 <= armor c -> 0 <= guard c -> 0 <= vigor c ->
  (scar_inflicted (snd (apply_damage c d)) = true
   <-> 0 < guard c /\ armor c + guard c <= d)
  /\ (wounded (snd (apply_damage c d)) = true
      <-> 0 < vigor c /\ armor c + guard c < d).
Proof.
  intros Hd Ha Hg Hv.
  destruct (hit_flags c d) as (Ew & _ & _ & _ & _ & Es & _).
  cbv zeta in Ew, Es.
  destruct (hit_pools c d Hd Ha Hg Hv) as (Eg & _ & Er).
  rewrite Ew, Es, Eg, Er.
  rewrite !andb_true_iff, !Z.ltb_lt, Z.eqb_eq. lia.
Qed.

Lemma hit_thresholds_witness :
  (scar_inflicted (snd (apply_damage armored 5)) = true
   <-> 0 < guard armored /\ armor armored + guard armored <= 5)
  /\ (wounded (snd (apply_damage armored 5)) = true
      <-> 0 < vigor armored /\ armor armored + guard armored < 5).
Proof.
  apply (hit_thresholds armored 5);
    unfold armored, fighter, new_character; fields; lia.
Defined.

(** X5: a hit of zero or negative damage changes nothing on any record,
    living or dead, and raises no wound, mortal-wound or scar signal; the
    only trace is the armor entry of the log, written when [armor > 0]. *)
Theorem nonpositive_hit_is_inert (c : Character) (d : Z) :
  d <= 0 ->
  fst (apply_damage c d) = c
  /\ wounded (snd (apply_damage c d)) = false
  /\ mortal_wound_inflicted (snd (apply_damage c d)) = false
  /\ scar_inflicted (snd (apply_damage c d)) = false
  /\ character_slain (snd (apply_damage c d)) = negb (is_alive c)
  /\ damage_log (snd (apply_damage c d))
     = if armor c >? 0 then [ArmorAbsorbed d] else [].
Proof.
  intros Hd. rewrite (hit_nonpositive c d Hd). fields.
  repeat split. unfold armor_stage.
  destruct (Z.gtb_spec (armor c) 0); fields; [|reflexivity].
  now replace (Z.min d (armor c)) with d by lia.
Qed.

Lemma nonpositive_hit_is_inert_witness :
  fst (apply_damage fallen (-3)) = fallen
  /\ wounded (snd (apply_damage fallen (-3))) = false
  /\ mortal_wound_inflicted (snd (apply_damage fallen (-3))) = false
  /\ scar_inflicted (snd (apply_damage fallen (-3))) = false
  /\ character_slain (snd (apply_damage fallen (-3)))
     = negb (is_alive fallen)
  /\ damage_log (snd (apply_damage fallen (-3)))
     = if armor fallen >? 0 then [ArmorAbsorbed (-3)] else [].
Proof.
  apply (nonpositive_hit_is_inert fallen (-3)). lia.
Defined.

(** X6: a hit never gives anything back.  Guard does not rise, vigor does
    not rise (on a sheet whose vigor is not negative), a wound, mortal wound
    or scar already on the sheet stays, and a dead character stays dead. *)
Theorem hit_never_restores (c : Character) (d : Z) :
  0 <= vigor c ->
  let c' := fst (apply_damage c d) in
  guard c' <= guard c /\ vigor c' <= vigor c
  /\ Bool.le (is_wounded c) (is_wounded c')
  /\ Bool.le (is_mortally_wounded c) (is_mortally_wounded c')
  /\ Bool.le (is_scarred c) (is_scarred c')
  /\ Bool.le (is_alive c') (is_alive c).
Proof.
  intros Hv. cbv zeta.
  destruct (hit_flags c d) as (_ & Ew & Em & Ea & _ & _ & Es & _).
  cbv zeta in Ew, Em, Ea, Es. rewrite Ew, Em, Ea, Es.
  split; [| split].
  - open_damage.
    set (g := guard_stage c (fst (armor_stage c d))).
    destruct (vigor_stage_guard (gs_self g) (gs_damage g)) as (-> & _).
    apply guard_stage_drains.
  - open_damage.
    destruct (guard_stage_vigor c (fst (armor_stage c d))) as (Gv & _).
    set (g := guard_stage c (fst (armor_stage c d))) in *.
    pose proof (vigor_stage_bounds (gs_self g) (gs_damage g)) as B.
    rewrite Gv in B. apply B, Hv.
  - repeat split.
    + destruct (is_wounded c); cbn [orb Bool.le]; auto.
    + destruct (is_mortally_wounded c); cbn [orb Bool.le]; auto.
    + destruct (is_scarred c); cbn [orb Bool.le]; auto.
    + destruct (is_alive c); cbn [andb Bool.le]; auto.
      now destruct (negb _).
Qed.

Lemma hit_never_restores_witness :
  guard (fst (apply_damage fallen 4)) <= guard fallen
  /\ vigor (fst (apply_damage fallen 4)) <= vigor fallen
  /\ Bool.le (is_wounded fallen) (is_wounded (fst (apply_damage fallen 4)))
  /\ Bool.le (is_mortally_wounded fallen)
       (is_mortally_wounded (fst (apply_damage fallen 4)))
  /\ Bool.le (is_scarred fallen) (is_scarred (fst (apply_damage fallen 4)))
  /\ Bool.le (is_alive (fst (apply_damage fallen 4))) (is_alive fallen).
Proof.
  apply (hit_never_restores fallen 4). unfold fallen; fields; lia.
Defined.

(** X7: vigor is touched only once the guard is down: when a hit changes
    the vigor, the guard it leaves is not positive, and is exactly zero on a
    sheet whose guard was not negative. *)
Theorem vigor_lost_only_after_guard (c : Character) (d : Z) :
  vigor (fst (apply_damage c d)) <> vigor c ->
  guard (fst (apply_damage c d)) <= 0
  /\ (0 <= guard c -> guard (fst (apply_damage c d)) = 0).
Proof.
  open_damage. intros H.
  set (d1 := fst (armor_stage c d)) in *.
  destruct (guard_stage_vigor c d1) as (Gv & _).
  destruct (guard_stage_bounds c d1) as (Gb & _).
  destruct (guard_stage_drains c d1) as (_ & Gd).
  set (g := guard_stage c d1) in *.
  destruct (vigor_stage_guard (gs_self g) (gs_damage g)) as (Vg & _).
  rewrite <- Gv in H. apply vigor_stage_changes in H.
  rewrite Vg. specialize (Gd H). split; [exact Gd|].
  intros Hg. specialize (Gb Hg). lia.
Qed.

Lemma vigor_lost_only_after_guard_witness :
  guard (fst (apply_damage armored 7)) <= 0
  /\ (0 <= guard armored -> guard (fst (apply_damage armored 7)) = 0).
Proof.
  apply (vigor_lost_only_after_guard armored 7).
  vm_compute. discriminate.
Defined.

(** X8: the log tells the signals of the report: a "now wounded", "mortal
    wound" or "scar" entry is in the log exactly when the matching signal
    is raised; a "slain" entry is there only if [character_slain] is
    reported; and a log never holds more than seven entries. *)
Theorem log_matches_signals (c : Character) (d : Z) :
  let r := snd (apply_damage c d) in
  existsb is_wounded_entry (damage_log r) = wounded r
  /\ existsb is_mortal_entry (damage_log r) = mortal_wound_inflicted r
  /\ existsb is_scar_entry (damage_log r) = scar_inflicted r
  /\ Bool.le (existsb is_slain_entry (damage_log r)) (character_slain r)
  /\ (List.length (damage_log r) <= 7)%nat.
Proof.
  cbv zeta. open_damage.
  destruct (armor_stage_log c d) as (A1 & A2 & A3 & A4 & A5).
  set (d1 := fst (armor_stage c d)).
  destruct (guard_stage_log c d1) as (G1 & G2 & G3 & G4 & G5).
  set (g := guard_stage c d1) in *.
  destruct (vigor_stage_log (gs_self g) (gs_damage g))
    as (V1 & V2 & V3 & V4 & V5).
  destruct (vigor_stage_flags (gs_self g) (gs_damage g)) as (_ & _ & _ & Va).
  rewrite !existsb_app, !length_app.
  rewrite A1, A2, A3, A4, G1, G2, G3, G4, V1, V2, V3, V4, Va.
  cbn [orb]. rewrite orb_false_r. repeat split; try lia.
  destruct ((0 <? gs_damage g)
            && (vigor (vs_self (vigor_stage (gs_self g) (gs_damage g)))
                <=? 0)); cbn [Bool.le negb andb]; auto.
  now rewrite andb_false_r.
Qed.

(** X9: a living character with vigor left who is slain by a hit gets the
    mortal wound with it, and a mortal wound on a character with vigor left
    always comes with a wound. *)
Theorem slain_means_mortal (c : Character) (d : Z) :
  1 <= vigor c -> is_alive c = true ->
  let r := snd (apply_damage c d) in
  Bool.le (character_slain r) (mortal_wound_inflicted r)
  /\ Bool.le (mortal_wound_inflicted r) (wounded r).
Proof.
  intros Hv Hal. cbv zeta.
  destruct (hit_flags c d) as (Ew & _ & _ & Ea & Es & _).
  cbv zeta in Ew, Ea, Es. rewrite Es, Ea, Ew, Hal. clear Ew Ea Es.
  open_damage.
  destruct (guard_stage_vigor c (fst (armor_stage c d))) as (Gv & _).
  set (g := guard_stage c (fst (armor_stage c d))) in *.
  pose proof (vigor_stage_mortal (gs_self g) (gs_damage g)) as M.
  pose proof (vigor_stage_loss (gs_self g) (gs_damage g)) as L.
  rewrite Gv in *.
  set (v' := vigor (vs_self (vigor_stage (gs_self g) (gs_damage g)))) in *.
  assert (B : 0 < gs_damage g -> 0 <= v' <= vigor c).
  { intros _. subst v'. rewrite <- Gv. apply vigor_stage_bounds. lia. }
  rewrite L in M.
  destruct (vs_mortal_wound_inflicted
              (vigor_stage (gs_self g) (gs_damage g))) eqn:Em.
  - split.
    + now destruct (negb _).
    + destruct (proj1 M eq_refl) as (P & _). specialize (B P).
      cbn [Bool.le]. rewrite andb_true_iff, !Z.ltb_lt. lia.
  - split; [|exact I].
    destruct (Z.ltb_spec 0 (gs_damage g)) as [P | P]; cbn [andb negb Bool.le];
      [|exact I].
    destruct (Z.leb_spec v' 0) as [Q | Q]; cbn [negb Bool.le]; [|exact I].
    specialize (B P). assert (F : false = true); [|discriminate F].
    apply M. split; [exact P|].
    replace (vigor c - v') with (vigor c) by lia.
    apply at_least_half_whole. lia.
Qed.

Lemma slain_means_mortal_witness :
  Bool.le (character_slain (snd (apply_damage armored 15)))
    (mortal_wound_inflicted (snd (apply_damage armored 15)))
  /\ Bool.le (mortal_wound_inflicted (snd (apply_damage armored 15)))
       (wounded (snd (apply_damage armored 15))).
Proof.
  apply (slain_means_mortal armored 15);
    [unfold armored, fighter, new_character; fields; lia | reflexivity].
Defined.

(** ** Hits in a row *)

(** Two drains of a pool in a row are one drain of their sum, and the
    overflow into the next pool adds up the same way. *)
Lemma drain_twice (r1 r2 g : Z) :
  0 <= r1 -> 0 <= r2 ->
  Z.max 0 (Z.max 0 (g - r1) - r2) = Z.max 0 (g - (r1 + r2)).
Proof. lia. Qed.

Lemma overflow_twice (r1 r2 g v : Z) :
  0 <= r1 -> 0 <= r2 -> 0 <= g ->
  Z.max 0 (Z.max 0 (v - Z.max 0 (r1 - g)) - Z.max 0 (r2 - Z.max 0 (g - r1)))
  = Z.max 0 (v - Z.max 0 (r1 + r2 - g)).
Proof. lia. Qed.

Lemma past_armor_twice (d1 d2 a : Z) :
  0 <= d1 -> 0 <= d2 -> 0 <= a ->
  0 <= Z.max 0 (d1 - a) /\ 0 <= Z.max 0 (d2 - a)
  /\ Z.max 0 (d1 - a) + Z.max 0 (d2 - a) <= Z.max 0 (d1 + d2 - a)
  /\ (a = 0 -> Z.max 0 (d1 - a) + Z.max 0 (d2 - a) = Z.max 0 (d1 + d2 - a)).
Proof. lia. Qed.

Lemma drain_monotone (r r' g v : Z) :
  r <= r' ->
  Z.max 0 (g - r') <= Z.max 0 (g - r)
  /\ Z.max 0 (v - Z.max 0 (r' - g)) <= Z.max 0 (v - Z.max 0 (r - g)).
Proof. lia. Qed.

Lemma hit_pools_max (c : Character) (d : Z) :
  0 <= d -> 0 <= armor c -> 0 <= guard c -> 0 <= vigor c ->
  guard (fst (apply_damage c d))
  = Z.max 0 (guard c - Z.max 0 (d - armor c))
  /\ vigor (fst (apply_damage c d))
     = Z.max 0 (vigor c - Z.max 0 (Z.max 0 (d - armor c) - guard c))
  /\ armor (fst (apply_damage c d)) = armor c.
Proof.
  intros Hd Ha Hg Hv.
  destruct (hit_pools c d Hd Ha Hg Hv) as (-> & -> & _).
  destruct (hit_flags c d) as (_ & _ & _ & _ & _ & _ & _ & A).
  cbv zeta in A. rewrite A. lia.
Qed.

(** X10: armor is taken off every hit, so two hits leave at least as much
    guard and vigor as one hit of their sum; with no armor the two hits and
    the single one leave the same guard and vigor. *)
Theorem split_hit_is_milder (c : Character) (d1 d2 : Z) :
  0 <= d1 -> 0 <= d2 -> 0 <= armor c -> 0 <= guard c -> 0 <= vigor c ->
  let two := fst (apply_damage (fst (apply_damage c d1)) d2) in
  let one := fst (apply_damage c (d1 + d2)) in
  guard one <= guard two /\ vigor one <= vigor two
  /\ (armor c = 0 -> guard one = guard two /\ vigor one = vigor two).
Proof.
  intros H1 H2 Ha Hg Hv. cbv zeta.
  destruct (hit_pools_max c d1 H1 Ha Hg Hv) as (G1 & V1 & A1).
  set (c1 := fst (apply_damage c d1)) in *.
  assert (Hg1 : 0 <= guard c1) by (rewrite G1; apply Z.le_max_l).
  assert (Hv1 : 0 <= vigor c1) by (rewrite V1; apply Z.le_max_l).
  assert (Ha1 : 0 <= armor c1) by (rewrite A1; exact Ha).
  destruct (hit_pools_max c1 d2 H2 Ha1 Hg1 Hv1) as (G2 & V2 & _).
  assert (H12 : 0 <= d1 + d2) by lia.
  destruct (hit_pools_max c (d1 + d2) H12 Ha Hg Hv) as (G & V & _).
  rewrite G, V, G2, V2, G1, V1, A1. clear G V G2 V2 G1 V1 A1 Hg1 Hv1 Ha1.
  destruct (past_armor_twice d1 d2 (armor c) H1 H2 Ha) as (R1 & R2 & R & Re).
  set (r1 := Z.max 0 (d1 - armor c)) in *.
  set (r2 := Z.max 0 (d2 - armor c)) in *.
  set (r := Z.max 0 (d1 + d2 - armor c)) in *.
  rewrite (drain_twice r1 r2 (guard c) R1 R2).
  rewrite (overflow_twice r1 r2 (guard c) (vigor c) R1 R2 Hg).
  destruct (drain_monotone (r1 + r2) r (guard c) (vigor c) R) as (M1 & M2).
  split; [exact M1 | split; [exact M2 |]].
  intros E. rewrite (Re E). split; reflexivity.
Qed.

Lemma split_hit_is_milder_witness :
  guard (fst (apply_damage armored (3 + 4)))
  <= guard (fst (apply_damage (fst (apply_damage armored 3)) 4))
  /\ vigor (fst (apply_damage armored (3 + 4)))
     <= vigor (fst (apply_damage (fst (apply_damage armored 3)) 4))
  /\ (armor armored = 0 ->
      guard (fst (apply_damage armored (3 + 4)))
      = guard (fst (apply_damage (fst (apply_damage armored 3)) 4))
      /\ vigor (fst (apply_damage armored (3 + 4)))
         = vigor (fst (apply_damage (fst (apply_damage armored 3)) 4))).
Proof.
  apply (split_hit_is_milder armored 3 4);
    unfold armored, fighter, new_character; fields; lia.
Defined.

(** ** Healing and restoring *)

Lemma heal_vigor_eq (c : Character) (amount : Z) :
  heal_vigor c amount
  = let v := Z.min (vigor c + amount) (max_vigor c) in
    if v =? max_vigor c then
      set_is_mortally_wounded (set_is_wounded (set_vigor c v) false) false
    else set_vigor c v.
Proof. reflexivity. Qed.

(** X11: healing adds up and never takes vigor away: healing by [a] and
    then by [b >= 0] is healing by [a + b], flags included; and on a sheet
    whose vigor is within its maximum, healing by [a >= 0] leaves the vigor
    between its old value and the maximum. *)
Theorem heal_vigor_adds_up (c : Character) (a b : Z) :
  0 <= b ->
  heal_vigor (heal_vigor c a) b = heal_vigor c (a + b)
  /\ (0 <= a -> vigor c <= max_vigor c ->
      vigor c <= vigor (heal_vigor c a) <= max_vigor c).
Proof.
  intros Hb. split.
  - destruct c as [n v mv cl mcl sp msp g mg ar mw w im fa sc al nt img].
    rewrite !heal_vigor_eq. cbv zeta. fields.
    destruct (Z.eqb_spec (Z.min (v + a) mv) mv) as [E1 | E1]; fields.
    + replace (Z.min (Z.min (v + a) mv + b) mv) with mv by lia.
      replace (Z.min (v + (a + b)) mv) with mv by lia.
      rewrite Z.eqb_refl. reflexivity.
    + replace (Z.min (Z.min (v + a) mv + b) mv)
        with (Z.min (v + (a + b)) mv) by lia.
      destruct (Z.eqb_spec (Z.min (v + (a + b)) mv) mv); reflexivity.
  - intros Ha Hm.
    destruct (heal_vigor_frame c a) as (_ & _ & _ & _ & _ & ->). lia.
Qed.

Lemma heal_vigor_adds_up_witness :
  heal_vigor (heal_vigor (fighter 2 0 0) 3) 4
  = heal_vigor (fighter 2 0 0) (3 + 4)
  /\ (0 <= 3 -> vigor (fighter 2 0 0) <= max_vigor (fighter 2 0 0) ->
      vigor (fighter 2 0 0) <= vigor (heal_vigor (fighter 2 0 0) 3)
      <= max_vigor (fighter 2 0 0)).
Proof.
  apply (heal_vigor_adds_up (fighter 2 0 0) 3 4). lia.
Defined.

(** X12: restoring guard adds up, never takes guard away and is
    independent of healing: restoring by [a] and then by [b >= 0] is
    restoring by [a + b]; on a sheet whose guard is within its maximum,
    restoring by [a >= 0] leaves the guard between its old value and the
    maximum; and [restore_guard] and [heal_vigor] commute. *)
Theorem restore_guard_adds_up (c : Character) (a b h : Z) :
  0 <= b ->
  restore_guard (restore_guard c a) b = restore_guard c (a + b)
  /\ (0 <= a -> guard c <= max_guard c ->
      guard c <= guard (restore_guard c a) <= max_guard c)
  /\ restore_guard (heal_vigor c h) a = heal_vigor (restore_guard c a) h.
Proof.
  intros Hb.
  destruct c as [n v mv cl mcl sp msp g mg ar mw w im fa sc al nt img].
  unfold restore_guard. rewrite !heal_vigor_eq. cbv zeta. fields.
  split; [| split].
  - replace (Z.min (Z.min (g + a) mg + b) mg)
      with (Z.min (g + (a + b)) mg) by lia.
    reflexivity.
  - intros; lia.
  - destruct (Z.min (v + h) mv =? mv); reflexivity.
Qed.

Lemma restore_guard_adds_up_witness :
  restore_guard (restore_guard (fighter 5 1 0) 1) 2
  = restore_guard (fighter 5 1 0) (1 + 2)
  /\ (0 <= 1 -> guard (fighter 5 1 0) <= max_guard (fighter 5 1 0) ->
      guard (fighter 5 1 0) <= guard (restore_guard (fighter 5 1 0) 1)
      <= max_guard (fighter 5 1 0))
  /\ restore_guard (heal_vigor (fighter 5 1 0) 4) 1
     = heal_vigor (restore_guard (fighter 5 1 0) 1) 4.
Proof.
  apply (restore_guard_adds_up (fighter 5 1 0) 1 2 4). lia.
Defined.

(** ** Full heal and the edit form *)

(** What a hit leaves of a sheet once the values it may write are put
    back. *)
Lemma hit_frame (c : Character) (d : Z) :
  let c' := fst (apply_damage c d) in
  set_vigor
    (set_guard
       (set_is_wounded
          (set_is_mortally_wounded
             (set_is_scarred (set_is_alive c' (is_alive c)) (is_scarred c))
             (is_mortally_wounded c))
          (is_wounded c))
       (guard c))
    (vigor c) = c.
Proof.
  cbv zeta. open_damage.
  set (g := guard_stage c (fst (armor_stage c d))).
  pose proof (guard_stage_frame c (fst (armor_stage c d))) as Hg.
  pose proof (vigor_stage_frame (gs_self g) (gs_damage g)) as Hv.
  cbv zeta in Hg, Hv. fold g in Hg.
  set (s := vs_self (vigor_stage (gs_self g) (gs_damage g))) in *.
  set (m := gs_self g) in *. clearbody s m.
  destruct s, m, c. fields.
  injection Hg as <- <- <- <- <- <- <- <- <- <- <- <- <- <- <- <-.
  injection Hv as <- <- <- <- <- <- <- <- <- <- <- <- <- <-.
  reflexivity.
Qed.

(** X13: a full heal wipes out whatever came before it: after a hit, a
    heal, a guard restoration or another full heal, [reset_to_full] gives
    the same sheet as on the original record. *)
Theorem reset_absorbs (c : Character) (d amount : Z) :
  reset_to_full (fst (apply_damage c d)) = reset_to_full c
  /\ reset_to_full (heal_vigor c amount) = reset_to_full c
  /\ reset_to_full (restore_guard c amount) = reset_to_full c
  /\ reset_to_full (reset_to_full c) = reset_to_full c.
Proof.
  split; [| split; [| split]].
  - pose proof (hit_frame c d) as H. cbv zeta in H.
    rewrite <- H at 2. unfold reset_to_full. fields. reflexivity.
  - rewrite heal_vigor_eq. cbv zeta.
    destruct (_ =? _); unfold reset_to_full; fields; reflexivity.
  - reflexivity.
  - reflexivity.
Qed.

(** X14: the edit form never raises a current value; submitting it twice
    with the same numbers is submitting it once; and submitting the numbers
    already on a sheet whose values are within their maxima changes
    nothing. *)
Theorem set_maximums_settles (c : Character) (mv mc ms mg a : Z) :
  let c' := set_maximums c mv mc ms mg a in
  set_maximums c' mv mc ms mg a = c'
  /\ vigor c' <= vigor c /\ clarity c' <= clarity c
  /\ spirit c' <= spirit c /\ guard c' <= guard c
  /\ (vigor c <= max_vigor c -> clarity c <= max_clarity c ->
      spirit c <= max_spirit c -> guard c <= max_guard c ->
      set_maximums c (max_vigor c) (max_clarity c) (max_spirit c)
        (max_guard c) (armor c) = c).
Proof.
  cbv zeta. unfold set_maximums. fields.
  split; [| repeat split; try lia].
  - now rewrite <- !Z.min_assoc, !Z.min_id.
  - intros H1 H2 H3 H4. rewrite !Z.min_l by assumption. now destruct c.
Qed.

Lemma set_maximums_settles_witness :
  set_maximums armored (max_vigor armored) (max_clarity armored)
    (max_spirit armored) (max_guard armored) (armor armored) = armored.
Proof.
  apply (set_maximums_settles armored 0 0 0 0 0);
    unfold armored, fighter, new_character; fields; lia.
Defined.

(** * The management page *)

(** [fields], with the setters of the pages. *)
Ltac page_fields :=
  cbn [name vigor max_vigor clarity max_clarity spirit max_spirit guard
       max_guard armor is_mortally_wounded is_wounded is_impaired is_fatigued
       is_scarred is_alive notes profile_image
       set_vigor set_guard set_is_mortally_wounded set_is_wounded
       set_is_scarred set_is_alive set_is_impaired set_is_fatigued
       set_notes set_profile_image fst snd andb orb negb] in *.

Lemma apply_vigor_change_eq (c : Character) (ch : Z) :
  apply_vigor_change c ch
  = let v := Z.max 0 (Z.min (vigor c + ch) (max_vigor c)) in
    if v <=? 0 then set_is_alive (set_vigor c v) false
    else if v =? max_vigor c then
      set_is_mortally_wounded (set_is_wounded (set_vigor c v) false) false
    else set_vigor c v.
Proof. reflexivity. Qed.

(** X15: the manual vigor change keeps vigor between zero and the maximum
    for any change, positive or negative; it marks the character dead
    exactly when the vigor it leaves is zero, never revives, and never adds
    a wound or a mortal wound. *)
Theorem vigor_change_bounds (c : Character) (ch : Z) :
  0 <= max_vigor c ->
  let c' := apply_vigor_change c ch in
  0 <= vigor c' <= max_vigor c'
  /\ is_alive c' = is_alive c && (0 <? vigor c')
  /\ Bool.le (is_wounded c') (is_wounded c)
  /\ Bool.le (is_mortally_wounded c') (is_mortally_wounded c).
Proof.
  intros Hm. cbv zeta. rewrite apply_vigor_change_eq. cbv zeta.
  set (v := Z.max 0 (Z.min (vigor c + ch) (max_vigor c))).
  assert (Hv : 0 <= v <= max_vigor c) by lia.
  destruct (Z.leb_spec v 0) as [L | L]; page_fields.
  - replace v with 0 by lia. cbn. rewrite andb_false_r.
    repeat split; try lia;
      [destruct (is_wounded c) | destruct (is_mortally_wounded c)];
      cbn; auto.
  - destruct (Z.eqb_spec v (max_vigor c)); page_fields;
      (destruct (Z.ltb_spec 0 v); [|lia]); rewrite andb_true_r;
      repeat split; try lia; cbn [Bool.le]; auto;
      try (destruct (is_wounded c); cbn; auto; fail);
      try (destruct (is_mortally_wounded c); cbn; auto; fail).
Qed.

Lemma vigor_change_bounds_witness :
  0 <= vigor (apply_vigor_change armored (-25))
  <= max_vigor (apply_vigor_change armored (-25))
  /\ is_alive (apply_vigor_change armored (-25))
     = is_alive armored && (0 <? vigor (apply_vigor_change armored (-25)))
  /\ Bool.le (is_wounded (apply_vigor_change armored (-25)))
       (is_wounded armored)
  /\ Bool.le (is_mortally_wounded (apply_vigor_change armored (-25)))
       (is_mortally_wounded armored).
Proof.
  apply (vigor_change_bounds armored (-25)).
  unfold armored, fighter, new_character; fields; lia.
Defined.

(** X16: on a character with vigor left, a manual vigor change that is not
    negative does exactly what [heal_vigor] does with the same amount. *)
Theorem vigor_change_heals (c : Character) (ch : Z) :
  0 <= ch -> 1 <= vigor c -> 1 <= max_vigor c ->
  apply_vigor_change c ch = heal_vigor c ch.
Proof.
  intros Hc Hv Hm. rewrite apply_vigor_change_eq, heal_vigor_eq. cbv zeta.
  replace (Z.max 0 (Z.min (vigor c + ch) (max_vigor c)))
    with (Z.min (vigor c + ch) (max_vigor c)) by lia.
  destruct (Z.leb_spec (Z.min (vigor c + ch) (max_vigor c)) 0); [lia|].
  reflexivity.
Qed.

Lemma vigor_change_heals_witness :
  apply_vigor_change (fighter 2 0 0) 3 = heal_vigor (fighter 2 0 0) 3.
Proof.
  apply (vigor_change_heals (fighter 2 0 0) 3);
    unfold fighter, new_character; fields; lia.
Defined.

(** X17: the manual guard change keeps guard between zero and the maximum
    for any change; it writes nothing but the guard, so emptying the guard
    by hand leaves [is_scarred] as it was; and on a sheet whose guard is
    not negative a change that is not negative is [restore_guard]. *)
Theorem guard_change_bounds (c : Character) (ch : Z) :
  0 <= max_guard c ->
  let c' := apply_guard_change c ch in
  0 <= guard c' <= max_guard c'
  /\ set_guard c' (guard c) = c
  /\ is_scarred c' = is_scarred c
  /\ (0 <= ch -> 0 <= guard c -> c' = restore_guard c ch).
Proof.
  intros Hm. cbv zeta. unfold apply_guard_change, restore_guard.
  destruct c as [n v mv cl mcl sp msp g mg ar mw w im fa sc al nt img].
  page_fields. repeat split; try lia.
  intros Hc Hg. now replace (Z.max 0 (Z.min (g + ch) mg))
                  with (Z.min (g + ch) mg) by lia.
Qed.

Lemma guard_change_bounds_witness :
  0 <= guard (apply_guard_change armored (-9))
  <= max_guard (apply_guard_change armored (-9))
  /\ set_guard (apply_guard_change armored (-9)) (guard armored) = armored
  /\ is_scarred (apply_guard_change armored (-9)) = is_scarred armored
  /\ (0 <= -9 -> 0 <= guard armored ->
      apply_guard_change armored (-9) = restore_guard armored (-9)).
Proof.
  apply (guard_change_bounds armored (-9)).
  unfold armored, fighter, new_character; fields; lia.
Defined.

(** * The roster *)

(** ** The dictionary operations *)

Lemma contains_In (k : string) (d : Roster) :
  contains k d = true <-> In k (keys d).
Proof.
  unfold contains. induction d as [|[k' v] d IH]; cbn.
  - split; [discriminate | tauto].
  - destruct (String.eqb_spec k k') as [-> | N].
    + split; auto.
    + rewrite IH. split; [auto | intros [E | H]; [congruence | exact H]].
Qed.

Lemma contains_false (k : string) (d : Roster) :
  contains k d = false <-> ~ In k (keys d).
Proof.
  rewrite <- contains_In. destruct (contains k d); split; congruence.
Qed.

Lemma getitem_In (k : string) (d : Roster) (v : Character) :
  getitem k d = Some v -> In (k, v) d.
Proof.
  induction d as [|[k' v'] d IH]; cbn; [discriminate|].
  destruct (String.eqb_spec k k') as [-> | N].
  - intros [= ->]. now left.
  - intros H. right. now apply IH.
Qed.

Lemma In_getitem (k : string) (d : Roster) (v : Character) :
  NoDup (keys d) -> In (k, v) d -> getitem k d = Some v.
Proof.
  induction d as [|[k' v'] d IH]; cbn; [tauto|].
  intros Hn [E | H].
  - injection E as -> ->. now rewrite String.eqb_refl.
  - inversion Hn as [|? ? Hk Hd]; subst.
    destruct (String.eqb_spec k k') as [-> | N]; [|now apply IH].
    exfalso. apply Hk. change k' with (fst (k', v)). now apply in_map.
Qed.

Lemma getitem_setitem (k k' : string) (v : Character) (d : Roster) :
  getitem k' (setitem k v d)
  = if String.eqb k' k then Some v else getitem k' d.
Proof.
  induction d as [|[k0 v0] d IH]; cbn.
  - reflexivity.
  - destruct (String.eqb_spec k k0) as [-> | N]; cbn.
    + now destruct (String.eqb_spec k' k0).
    + rewrite IH. destruct (String.eqb_spec k' k0) as [-> | N'].
      * destruct (String.eqb_spec k0 k); [congruence | reflexivity].
      * reflexivity.
Qed.

(** Assigning to a present key keeps the keys and their order; assigning to
    a new key appends it. *)
Lemma keys_setitem (k : string) (v : Character) (d : Roster) :
  keys (setitem k v d) = if contains k d then keys d else keys d ++ [k].
Proof.
  unfold contains, keys. induction d as [|[k0 v0] d IH]; cbn; [reflexivity|].
  destruct (String.eqb_spec k k0) as [-> | N]; cbn; [reflexivity|].
  rewrite IH. now destruct (getitem k d).
Qed.

Lemma setitem_new (k : string) (v : Character) (d : Roster) :
  contains k d = false -> setitem k v d = d ++ [(k, v)].
Proof.
  unfold contains. induction d as [|[k0 v0] d IH]; cbn; [reflexivity|].
  destruct (String.eqb_spec k k0) as [-> | N]; [discriminate|].
  intros H. now rewrite IH.
Qed.

Lemma setitem_twice (k : string) (v : Character) (d : Roster) :
  setitem k v (setitem k v d) = setitem k v d.
Proof.
  induction d as [|[k0 v0] d IH]; cbn.
  - now rewrite String.eqb_refl.
  - destruct (String.eqb_spec k k0) as [-> | N]; cbn.
    + now rewrite String.eqb_refl.
    + destruct (String.eqb_spec k k0); [congruence|]. now rewrite IH.
Qed.

Lemma Forall_setitem (P : string * Character -> Prop) (k : string)
    (v : Character) (d : Roster) :
  Forall P d -> P (k, v) -> Forall P (setitem k v d).
Proof.
  intros Hd Hp. induction Hd as [|[k0 v0] d H0 Hd IH]; cbn.
  - now constructor.
  - destruct (String.eqb_spec k k0) as [-> | N]; constructor; auto.
Qed.

Lemma getitem_delitem (k k' : string) (d : Roster) :
  NoDup (keys d) ->
  getitem k' (delitem k d) = if String.eqb k' k then None else getitem k' d.
Proof.
  induction d as [|[k0 v0] d IH]; cbn; intros Hn.
  - now destruct (String.eqb k' k).
  - inversion Hn as [|? ? Hk Hd]; subst.
    destruct (String.eqb_spec k k0) as [-> | N]; cbn.
    + destruct (String.eqb_spec k' k0) as [-> | N']; [|reflexivity].
      destruct (getitem k0 d) eqn:E; [|reflexivity].
      exfalso. apply Hk. apply contains_In. unfold contains. now rewrite E.
    + rewrite (IH Hd). destruct (String.eqb_spec k' k0) as [-> | N'].
      * destruct (String.eqb_spec k0 k); [congruence | reflexivity].
      * reflexivity.
Qed.

Lemma keys_delitem (k : string) (d : Roster) :
  forall x, In x (keys (delitem k d)) -> In x (keys d).
Proof.
  induction d as [|[k0 v0] d IH]; cbn; [tauto|].
  destruct (String.eqb_spec k k0) as [-> | N]; cbn; intuition.
Qed.

Lemma NoDup_delitem (k : string) (d : Roster) :
  NoDup (keys d) -> NoDup (keys (delitem k d)).
Proof.
  induction d as [|[k0 v0] d IH]; cbn; intros Hn; [constructor|].
  inversion Hn as [|? ? Hk Hd]; subst.
  destruct (String.eqb_spec k k0) as [-> | N]; cbn; [exact Hd|].
  constructor; [|now apply IH].
  intros H. apply Hk. now apply keys_delitem in H.
Qed.

Lemma Forall_delitem (P : string * Character -> Prop) (k : string)
    (d : Roster) :
  Forall P d -> Forall P (delitem k d).
Proof.
  intros Hd. induction Hd as [|[k0 v0] d H0 Hd IH]; cbn; [constructor|].
  destruct (String.eqb_spec k k0); [exact Hd | now constructor].
Qed.

Lemma NoDup_setitem (k : string) (v : Character) (d : Roster) :
  NoDup (keys d) -> NoDup (keys (setitem k v d)).
Proof.
  intros Hn. rewrite keys_setitem. destruct (contains k d) eqn:E; [exact Hn|].
  apply contains_false in E.
  apply NoDup_app; [exact Hn | repeat constructor; intros [] |].
  intros x Hx [<- | []]. contradiction.
Qed.

(** ** Well-formed sheets through the handlers *)

Lemma new_character_sheet_ok (n : string) (v cl sp g a : Z) (nt : string)
    (img : option (list Byte.byte)) :
  creation_inputs v cl sp g a = true ->
  sheet_ok (new_character n v cl sp g a nt img).
Proof.
  unfold creation_inputs. rewrite !andb_true_iff, !Z.leb_le.
  unfold sheet_ok, new_character. fields. intros. repeat split; lia.
Qed.

Lemma reset_to_full_sheet_ok (c : Character) :
  sheet_ok c -> sheet_ok (reset_to_full c).
Proof.
  unfold sheet_ok, reset_to_full. fields. intros. repeat split; lia.
Qed.

Lemma apply_vigor_change_sheet_ok (c : Character) (ch : Z) :
  sheet_ok c -> sheet_ok (apply_vigor_change c ch).
Proof.
  unfold sheet_ok. rewrite apply_vigor_change_eq. cbv zeta.
  intros (Hv & Hm & Hc & Hs & Hg & Ha & Hal).
  set (v := Z.max 0 (Z.min (vigor c + ch) (max_vigor c))).
  assert (Hb : 0 <= v <= max_vigor c) by lia.
  destruct (Z.leb_spec v 0); [| destruct (Z.eqb_spec v (max_vigor c))];
    page_fields; repeat split; try lia; intros; try discriminate; lia.
Qed.

Lemma apply_guard_change_sheet_ok (c : Character) (ch : Z) :
  sheet_ok c -> sheet_ok (apply_guard_change c ch).
Proof.
  unfold sheet_ok, apply_guard_change. page_fields.
  intros (Hv & Hm & Hc & Hs & Hg & Ha & Hal). repeat split; try lia.
  exact Hal.
Qed.

Lemma set_maximums_sheet_ok (c : Character) (mv mc ms mg a : Z) :
  edit_inputs mv mc ms mg a = true ->
  sheet_ok c -> sheet_ok (set_maximums c mv mc ms mg a).
Proof.
  unfold edit_inputs. rewrite !andb_true_iff, !Z.leb_le.
  unfold sheet_ok, set_maximums. fields.
  intros Hi (Hv & Hm & Hc & Hs & Hg & Ha & Hal). repeat split; try lia.
  intros E. specialize (Hal E). lia.
Qed.

Lemma hit_sheet_ok (c : Character) (d : Z) :
  sheet_ok c -> sheet_ok (fst (apply_damage c d)).
Proof.
  unfold sheet_ok. intros (Hv & Hm & Hc & Hs & Hg & Ha & Hal).
  assert (Hp : pools_ok c) by (unfold pools_ok; lia).
  apply (apply_damage_pools c d) in Hp. destruct Hp as (Pv & Pg).
  destruct (apply_damage_alive c d) as (Em & Ea & Ev & _).
  pose proof (hit_frame c d) as F. cbv zeta in F, Em, Ea, Ev.
  set (c' := fst (apply_damage c d)) in *. clearbody c'.
  destruct c', c. fields.
  injection F as <- <- <- <- <- <- <- <- <- <- <- <-.
  repeat split; try lia. intros E. apply Ev; auto.
Qed.

Lemma hit_name (c : Character) (d : Z) :
  name (fst (apply_damage c d)) = name c.
Proof.
  pose proof (hit_frame c d) as F. cbv zeta in F.
  set (c' := fst (apply_damage c d)) in *. clearbody c'.
  destruct c', c. fields. now injection F as <-.
Qed.

(** ** Well-formed rosters through the handlers *)

Lemma roster_ok_setitem (k : string) (c : Character) (d : Roster) :
  roster_ok d -> name c = k -> k <> ""%string -> sheet_ok c ->
  roster_ok (setitem k c d).
Proof.
  intros (Hn & Hf) Hk He Hs. split.
  - now apply NoDup_setitem.
  - apply Forall_setitem; [exact Hf|]. cbn [fst snd]. auto.
Qed.

Lemma roster_ok_getitem (k : string) (c : Character) (d : Roster) :
  roster_ok d -> getitem k d = Some c ->
  name c = k /\ k <> ""%string /\ sheet_ok c.
Proof.
  intros (_ & Hf) H. apply getitem_In in H.
  rewrite Forall_forall in Hf. destruct (Hf _ H) as (E & N & S).
  cbn [fst snd] in *. auto.
Qed.

Lemma on_character_spec (st : SessionState) (d : Roster) (sel : string)
    (f : Character -> Character) (st' : SessionState) :
  roster_ok d -> (forall c, name (f c) = name c) ->
  on_character st d sel f = Some st' ->
  exists c,
    getitem sel d = Some c /\ sel <> ""%string /\ name c = sel /\ sheet_ok c
    /\ roster st' = setitem sel (f c) d
    /\ last_damage_result st' = last_damage_result st
    /\ last_target st' = last_target st.
Proof.
  intros Hd Hf. unfold on_character.
  destruct (getitem sel d) as [c|] eqn:E; [|discriminate].
  destruct (String.eqb_spec sel "") as [-> | N]; [discriminate|].
  intros [= <-]. exists c.
  destruct (roster_ok_getitem sel c d Hd E) as (En & _ & Es).
  split; [reflexivity|]. split; [exact N|]. split; [exact En|].
  split; [exact Es|]. split; [|split; reflexivity].
  unfold save_character, set_characters, roster. cbn [characters].
  rewrite Hf, En. apply setitem_twice.
Qed.

Lemma on_character_roster_ok (st : SessionState) (d : Roster) (sel : string)
    (f : Character -> Character) (st' : SessionState) :
  roster_ok d -> (forall c, name (f c) = name c) ->
  (forall c, sheet_ok c -> sheet_ok (f c)) ->
  on_character st d sel f = Some st' -> roster_ok (roster st').
Proof.
  intros Hd Hn Hs H.
  destruct (on_character_spec st d sel f st' Hd Hn H)
    as (c & E & N & En & Es & -> & _).
  apply roster_ok_setitem; auto. now rewrite Hn.
Qed.

Lemma apply_vigor_change_name (c : Character) (ch : Z) :
  name (apply_vigor_change c ch) = name c.
Proof.
  rewrite apply_vigor_change_eq. cbv zeta.
  destruct (_ <=? _); [|destruct (_ =? _)]; reflexivity.
Qed.

Lemma load_characters_eq (st0 : SessionState) :
  load_characters st0 = (set_characters st0 (roster st0), roster st0).
Proof. reflexivity. Qed.

Lemma handle_roster_ok (st st' : SessionState) (ev : Event) :
  roster_ok (roster st) -> handle st ev = Some st' -> roster_ok (roster st').
Proof.
  intros Hd. unfold handle. rewrite load_characters_eq.
  set (d := roster st) in *. set (s := set_characters st d).
  assert (Hs : roster s = d) by reflexivity.
  destruct ev.
  - destruct (creation_inputs v cl sp g a) eqn:Hi; [|discriminate].
    destruct (String.eqb_spec n "") as [-> | N]; cbn [negb andb].
    + intros [= <-]. now rewrite Hs.
    + destruct (contains n d) eqn:Hc; cbn [negb].
      * intros [= <-]. now rewrite Hs.
      * intros [= <-]. unfold save_character. rewrite Hs. cbn.
        apply roster_ok_setitem; auto.
        now apply new_character_sheet_ok.
  - apply on_character_roster_ok; auto using reset_to_full_sheet_ok.
  - apply on_character_roster_ok; auto using apply_vigor_change_sheet_ok,
      apply_vigor_change_name.
  - apply on_character_roster_ok; auto using apply_guard_change_sheet_ok.
  - apply on_character_roster_ok; auto.
  - apply on_character_roster_ok; auto.
  - apply on_character_roster_ok; auto.
  - destruct new_image.
    + apply on_character_roster_ok; auto.
      + destruct (getitem selected d); [|discriminate].
      destruct (String.eqb selected ""); [discriminate|].
      intros [= <-]. now rewrite Hs.
  - apply on_character_roster_ok; auto.
  - apply on_character_roster_ok; auto.
  - apply on_character_roster_ok; auto.
  - destruct (edit_inputs _ _ _ _ _) eqn:Hi; [|discriminate].
    apply on_character_roster_ok; auto using set_maximums_sheet_ok.
  - destruct (getitem selected d); [|discriminate].
    destruct (String.eqb selected ""); [discriminate|].
    intros [= <-]. unfold delete_character. cbn [characters s set_characters].
    destruct (contains selected d); cbn; [|exact Hd].
    destruct Hd as (Hn & Hf). split.
    * now apply NoDup_delitem.
    * now apply Forall_delitem.
  - destruct (0 <=? damage_amount); [|discriminate].
    destruct (getitem target_name (alive_characters d)); [|discriminate].
    destruct (negb (String.eqb target_name "") && (damage_amount >? 0)).
    + destruct (getitem target_name d) as [tc|] eqn:E; [|discriminate].
      destruct (roster_ok_getitem _ _ _ Hd E) as (En & N & Es).
      pose proof (hit_sheet_ok tc damage_amount Es) as Hh.
      pose proof (hit_name tc damage_amount) as Hnm.
      destruct (apply_damage tc damage_amount) as [c' r]. cbn [fst] in *.
      intros [= <-]. unfold save_character, set_characters, roster. cbn.
      rewrite Hnm, En, setitem_twice.
      apply roster_ok_setitem; auto. congruence.
    + intros [= <-]. now rewrite Hs.
  - destruct (getitem target_name (alive_characters d)); [|discriminate].
    apply on_character_roster_ok; auto.
  - destruct (getitem target_name (alive_characters d)); [|discriminate].
    apply on_character_roster_ok; auto.
Qed.

Lemma setitem_same (k : string) (c : Character) (d : Roster) :
  getitem k d = Some c -> setitem k c d = d.
Proof.
  induction d as [|[k0 v0] d IH]; cbn; [discriminate|].
  destruct (String.eqb_spec k k0) as [-> | N].
  - now intros [= ->].
  - intros H. now rewrite IH.
Qed.

Lemma getitem_alive (k : string) (c : Character) (d : Roster) :
  NoDup (keys d) -> getitem k (alive_characters d) = Some c ->
  getitem k d = Some c /\ is_alive c = true.
Proof.
  intros Hn H. apply getitem_In in H. unfold alive_characters in H.
  apply filter_In in H as (Hi & Ha). cbn [snd] in Ha.
  split; [now apply In_getitem | exact Ha].
Qed.

Lemma mutation_of_name (ev : Event) (c : Character) :
  name (mutation_of ev c) = name c.
Proof.
  destruct ev; cbn [mutation_of]; try reflexivity.
  - apply apply_vigor_change_name.
  - now destruct new_image.
  - destruct (damage_amount >? 0); [apply hit_name | reflexivity].
Qed.

(** Every event that is not a creation or a deletion rewrites the sheet it
    selects, in place, with [mutation_of]. *)
Lemma handle_mutation (st st' : SessionState) (ev : Event) :
  roster_ok (roster st) -> acts_on_roster ev = false ->
  handle st ev = Some st' ->
  exists c,
    getitem (subject ev) (roster st) = Some c
    /\ roster st' = setitem (subject ev) (mutation_of ev c) (roster st).
Proof.
  intros Hd Ha. unfold handle. rewrite load_characters_eq.
  set (d := roster st) in *. set (s := set_characters st d).
  assert (Hs : roster s = d) by reflexivity.
  assert (On : forall sel f st1,
    (forall c, name (f c) = name c) ->
    on_character s d sel f = Some st1 ->
    exists c, getitem sel d = Some c /\ roster st1 = setitem sel (f c) d).
  { intros sel f st1 Hf H.
    destruct (on_character_spec s d sel f st1 Hd Hf H)
      as (c & E & _ & _ & _ & R & _). now exists c. }
  destruct ev; try discriminate Ha; cbn [subject mutation_of].
  - now apply On.
  - apply On. intros; apply apply_vigor_change_name.
  - now apply On.
  - now apply On.
  - now apply On.
  - now apply On.
  - destruct new_image; [now apply On|].
    destruct (getitem selected d) as [c0|] eqn:E; [|discriminate].
    destruct (String.eqb selected ""); [discriminate|].
    intros [= <-]. exists c0. rewrite Hs. split; [reflexivity|].
    symmetry. now apply setitem_same.
  - now apply On.
  - now apply On.
  - now apply On.
  - destruct (edit_inputs _ _ _ _ _); [|discriminate]. now apply On.
  - destruct (0 <=? damage_amount); [|discriminate].
    destruct (getitem target_name (alive_characters d)) as [c0|] eqn:Ea;
      [|discriminate].
    pose proof Hd as (Hn & _).
    destruct (getitem_alive _ _ _ Hn Ea) as (E & _).
    destruct (roster_ok_getitem _ _ _ Hd E) as (En & Ne & _).
    destruct (String.eqb_spec target_name "") as [-> | N]; cbn [negb andb];
      [now exfalso|].
    rewrite E. destruct (damage_amount >? 0).
    + pose proof (hit_name c0 damage_amount) as Hnm.
      destruct (apply_damage c0 damage_amount) as [c' r] eqn:Eh.
      cbn [fst] in *.
      intros [= <-]. exists c0. rewrite Eh. split; [reflexivity|].
      unfold save_character, set_characters, roster. cbn [characters fst].
      rewrite Hnm, En. apply setitem_twice.
    + intros [= <-]. exists c0. rewrite Hs. split; [reflexivity|].
      symmetry. now apply setitem_same.
  - destruct (getitem target_name (alive_characters d)); [|discriminate].
    now apply On.
  - destruct (getitem target_name (alive_characters d)); [|discriminate].
    now apply On.
Qed.

Lemma camp_ok : roster_ok (roster camp).
Proof.
  split.
  - cbn. repeat constructor; cbn; intuition discriminate.
  - repeat constructor; cbn [fst snd]; try discriminate;
      unfold sheet_ok, brenna, armored, fighter, new_character; fields;
      repeat split; lia.
Qed.

Lemma empty_roster_ok : roster_ok (roster new_session).
Proof. split; constructor. Qed.

(** ** Creating characters *)

(** X18: the creation form never overwrites.  With numbers its inputs allow,
    an empty name or a name already in the roster leaves the roster as it
    is; any other name is appended at the end, with every pool at its
    maximum. *)
Theorem create_character_outcomes (st : SessionState) (n : string)
    (v cl sp g a : Z) (nt : string) (img : option (list Byte.byte)) :
  creation_inputs v cl sp g a = true ->
  exists st',
    handle st (CreateCharacter n v cl sp g a nt img) = Some st'
    /\ roster st'
       = (if negb (String.eqb n "") && negb (contains n (roster st))
          then roster st ++ [(n, new_character n v cl sp g a nt img)]
          else roster st)
    /\ last_damage_result st' = last_damage_result st
    /\ last_target st' = last_target st.
Proof.
  intros Hi. unfold handle. rewrite load_characters_eq, Hi.
  destruct (negb (String.eqb n "") && negb (contains n (roster st))) eqn:E.
  - eexists. split; [reflexivity|]. split; [|split; reflexivity].
    apply andb_true_iff in E as (_ & E). apply negb_true_iff in E.
    unfold save_character, set_characters, roster at 1. cbn [characters name
      new_character]. now apply setitem_new.
  - eexists. split; [reflexivity|]. repeat split.
Qed.

Lemma create_character_outcomes_witness :
  exists st',
    handle camp (CreateCharacter "Brenna" 9 9 9 9 9 "" None) = Some st'
    /\ roster st'
       = (if negb (String.eqb "Brenna" "")
             && negb (contains "Brenna" (roster camp))
          then roster camp
               ++ [("Brenna"%string,
                    new_character "Brenna" 9 9 9 9 9 "" None)]
          else roster camp)
    /\ last_damage_result st' = last_damage_result camp
    /\ last_target st' = last_target camp.
Proof.
  apply (create_character_outcomes camp "Brenna" 9 9 9 9 9 "" None).
  reflexivity.
Defined.

(** ** The roster along a session *)

(** X19: along any session the roster stays well formed: names are unique
    and not empty, every sheet is filed under its own name, every current
    value lies within its maximum, and a living character has vigor
    left. *)
Theorem session_keeps_rosters_ok (st st' : SessionState)
    (evs : list Event) :
  roster_ok (roster st) -> play st evs = Some st' -> roster_ok (roster st').
Proof.
  revert st. induction evs as [|ev evs IH]; intros st Hd; cbn [play].
  - now intros [= <-].
  - destruct (handle st ev) as [st1|] eqn:E; [|discriminate].
    apply IH. exact (handle_roster_ok st st1 ev Hd E).
Qed.

Lemma session_keeps_rosters_ok_witness :
  match play new_session skirmish with
  | Some st' => roster_ok (roster st')
  | None => False
  end.
Proof.
  destruct (play new_session skirmish) as [st'|] eqn:E.
  - exact (session_keeps_rosters_ok new_session st' skirmish
             empty_roster_ok E).
  - vm_compute in E. discriminate E.
Defined.

Lemma handle_elsewhere (st st' : SessionState) (ev : Event) (k : string) :
  roster_ok (roster st) -> handle st ev = Some st' -> k <> subject ev ->
  getitem k (roster st') = getitem k (roster st).
Proof.
  intros Hd H Hk. destruct (acts_on_roster ev) eqn:Ha.
  - destruct ev; try discriminate Ha; cbn [subject] in Hk.
    + unfold handle in H. rewrite load_characters_eq in H.
      destruct (creation_inputs v cl sp g a); [|discriminate].
      destruct (negb (String.eqb n "") && negb (contains n (roster st)));
        injection H as <-; [|reflexivity].
      unfold save_character, set_characters, roster at 1.
      cbn [characters name new_character]. rewrite getitem_setitem.
      destruct (String.eqb_spec k n); [contradiction | reflexivity].
    + unfold handle in H. rewrite load_characters_eq in H.
      destruct (getitem selected (roster st)); [|discriminate].
      destruct (String.eqb selected ""); [discriminate|].
      injection H as <-. unfold delete_character, set_characters.
      cbn [characters].
      destruct (contains selected (roster st)); [|reflexivity].
      unfold roster at 1. cbn [characters].
      rewrite getitem_delitem by apply Hd.
      destruct (String.eqb_spec k selected); [contradiction | reflexivity].
  - destruct (handle_mutation st st' ev Hd Ha H) as (c & _ & ->).
    rewrite getitem_setitem.
    destruct (String.eqb_spec k (subject ev)); [contradiction | reflexivity].
Qed.

(** X20: an event changes one character at most: every sheet filed under a
    name other than the one the event carries is the same before and
    after, and such a name is in the roster after the event exactly when it
    was before. *)
Theorem events_touch_one_character (st st' : SessionState) (ev : Event)
    (k : string) :
  roster_ok (roster st) -> handle st ev = Some st' -> k <> subject ev ->
  getitem k (roster st') = getitem k (roster st)
  /\ contains k (roster st') = contains k (roster st).
Proof.
  intros Hd H Hk. pose proof (handle_elsewhere st st' ev k Hd H Hk) as E.
  split; [exact E|]. unfold contains. now rewrite E.
Qed.

Lemma events_touch_one_character_witness :
  match handle camp (CombatApplyDamage "Brenna" 5) with
  | Some st' =>
      getitem "Aldric" (roster st') = getitem "Aldric" (roster camp)
      /\ contains "Aldric" (roster st') = contains "Aldric" (roster camp)
  | None => False
  end.
Proof.
  destruct (handle camp (CombatApplyDamage "Brenna" 5)) as [st'|] eqn:E.
  - apply (events_touch_one_character camp st'
             (CombatApplyDamage "Brenna" 5) "Aldric" camp_ok E).
    discriminate.
  - vm_compute in E. discriminate E.
Defined.

(** ** Combat *)

(** X21: the combat page hits the living only.  Whenever its damage button
    is on offer for a target in a well-formed roster, that target is alive
    and has vigor left; with a damage of zero nothing is changed, and with
    a positive damage the target's sheet is replaced by the sheet after the
    hit, and the report of that hit is stored with the target's name. *)
Theorem combat_hits_only_the_living (st st' : SessionState)
    (target : string) (damage_amount : Z) :
  roster_ok (roster st) ->
  handle st (CombatApplyDamage target damage_amount) = Some st' ->
  exists c,
    getitem target (roster st) = Some c
    /\ is_alive c = true /\ 1 <= vigor c /\ 0 <= damage_amount
    /\ (damage_amount = 0 ->
        roster st' = roster st
        /\ last_damage_result st' = last_damage_result st
        /\ last_target st' = last_target st)
    /\ (0 < damage_amount ->
        roster st'
        = setitem target (fst (apply_damage c damage_amount)) (roster st)
        /\ last_damage_result st' = Some (snd (apply_damage c damage_amount))
        /\ last_target st' = Some target).
Proof.
  intros Hd H.
  destruct (handle_mutation st st' (CombatApplyDamage target damage_amount)
              Hd eq_refl H) as (c & E & R).
  cbn [subject mutation_of] in E, R. exists c.
  unfold handle in H. rewrite load_characters_eq in H.
  destruct (Z.leb_spec 0 damage_amount) as [Hn | Hn]; [|discriminate].
  destruct (getitem target (alive_characters (roster st))) as [c0|] eqn:Ea;
    [|discriminate].
  destruct (getitem_alive _ _ _ (proj1 Hd) Ea) as (E0 & Hal).
  assert (c0 = c) by congruence. subst c0.
  destruct (roster_ok_getitem _ _ _ Hd E) as (_ & Ne & Hs).
  split; [exact E|]. split; [exact Hal|].
  split; [now apply Hs|]. split; [exact Hn|].
  destruct (String.eqb_spec target "") as [-> | _]; [now exfalso|].
  cbn [negb andb] in H. rewrite E in H.
  destruct (Z.gtb_spec damage_amount 0) as [Hp | Hp].
  - split; [intros; lia|]. intros _. split; [exact R|].
    destruct (apply_damage c damage_amount) as [c' r].
    now injection H as <-.
  - split; [|intros; lia]. intros _. injection H as <-.
    rewrite R. split; [now apply setitem_same | split; reflexivity].
Qed.

Lemma combat_hits_only_the_living_witness :
  match handle camp (CombatApplyDamage "Aldric" 9) with
  | Some st' =>
      exists c,
        getitem "Aldric" (roster camp) = Some c
        /\ is_alive c = true /\ 1 <= vigor c /\ 0 <= 9
        /\ (9 = 0 ->
            roster st' = roster camp
            /\ last_damage_result st' = last_damage_result camp
            /\ last_target st' = last_target camp)
        /\ (0 < 9 ->
            roster st'
            = setitem "Aldric" (fst (apply_damage c 9)) (roster camp)
            /\ last_damage_result st' = Some (snd (apply_damage c 9))
            /\ last_target st' = Some "Aldric"%string)
  | None => False
  end.
Proof.
  destruct (handle camp (CombatApplyDamage "Aldric" 9)) as [st'|] eqn:E.
  - exact (combat_hits_only_the_living camp st' "Aldric" 9 camp_ok E).
  - vm_compute in E. discriminate E.
Defined.

(** ** Death and revival along a session *)

Lemma vigor_change_sheet (c : Character) (ch : Z) :
  is_alive (apply_vigor_change c ch)
  = is_alive c && negb (vigor (apply_vigor_change c ch) <=? 0)
  /\ max_vigor (apply_vigor_change c ch) = max_vigor c.
Proof.
  rewrite apply_vigor_change_eq. cbv zeta.
  set (v := Z.max 0 (Z.min (vigor c + ch) (max_vigor c))).
  destruct (Z.leb_spec v 0) as [L | L]; page_fields.
  - destruct (Z.leb_spec v 0); [|lia]. now rewrite andb_false_r.
  - destruct (Z.eqb_spec v (max_vigor c)); page_fields;
      (destruct (Z.leb_spec v 0); [lia|]); now rewrite andb_true_r.
Qed.

Lemma mutation_keeps_dead (ev : Event) (c : Character) :
  is_alive c = false -> is_alive (mutation_of ev c) = true ->
  ev = FullHeal (subject ev).
Proof.
  intros Hc.
  destruct ev as [| | s ch | | | | | s img | | | | | | s dmg | |];
    cbn [mutation_of subject]; intros H; try reflexivity;
    try (unfold apply_guard_change, set_maximums in H; page_fields;
         congruence).
  - destruct (vigor_change_sheet c ch) as (E & _).
    rewrite E, Hc in H. discriminate.
  - destruct img; page_fields; congruence.
  - destruct (dmg >? 0); [|congruence].
    destruct (apply_damage_alive c dmg) as (_ & A & _).
    apply A in H. congruence.
Qed.

(** X22: the only button that brings a character back is "Full Heal" on
    that character: if a sheet is dead before an event and the sheet under
    the same name is alive after it, the event is [FullHeal] of that
    name. *)
Theorem only_full_heal_revives (st st' : SessionState) (ev : Event)
    (k : string) (c c' : Character) :
  roster_ok (roster st) -> handle st ev = Some st' ->
  getitem k (roster st) = Some c -> is_alive c = false ->
  getitem k (roster st') = Some c' -> is_alive c' = true ->
  ev = FullHeal k.
Proof.
  intros Hd H E Hc E' Hc'.
  destruct (String.eqb_spec k (subject ev)) as [-> | N].
  - destruct (acts_on_roster ev) eqn:Ha.
    + exfalso. destruct ev; try discriminate Ha; cbn [subject] in *;
        unfold handle in H; rewrite load_characters_eq in H.
      * destruct (creation_inputs v cl sp g a); [|discriminate].
        unfold contains in H. rewrite E in H.
        rewrite andb_false_r in H. injection H as <-.
        unfold set_characters, roster at 1 in E'. cbn [characters] in E'.
        congruence.
      * rewrite E in H. destruct (String.eqb selected ""); [discriminate|].
        injection H as <-. unfold delete_character, set_characters in E'.
        cbn [characters] in E'. unfold contains in E'. rewrite E in E'.
        unfold roster at 1 in E'. cbn [characters] in E'.
        rewrite getitem_delitem in E' by apply Hd.
        rewrite String.eqb_refl in E'. discriminate.
    + destruct (handle_mutation st st' ev Hd Ha H) as (c0 & E0 & R).
      rewrite R, getitem_setitem, String.eqb_refl in E'.
      assert (c0 = c) by congruence. subst c0. injection E' as <-.
      now apply (mutation_keeps_dead ev c).
  - exfalso. rewrite (handle_elsewhere st st' ev k Hd H N) in E'. congruence.
Qed.

Lemma graveyard_ok : roster_ok (roster graveyard).
Proof.
  split.
  - cbn. repeat constructor. intros [].
  - repeat constructor; cbn [fst snd]; try discriminate;
      unfold sheet_ok, fallen; fields; repeat split; try lia.
Qed.

Lemma only_full_heal_revives_witness :
  FullHeal "Aldric" = FullHeal "Aldric".
Proof.
  apply (only_full_heal_revives graveyard
           (mkSession (Some [("Aldric"%string, reset_to_full fallen)])
              None None)
           (FullHeal "Aldric") "Aldric" fallen (reset_to_full fallen)
           graveyard_ok); reflexivity.
Defined.

(** ** Deleting characters *)

Lemma length_delitem (k : string) (d : Roster) :
  contains k d = true -> S (List.length (delitem k d)) = List.length d.
Proof.
  unfold contains. induction d as [|[k0 v0] d IH]; cbn; [discriminate|].
  destruct (String.eqb_spec k k0) as [-> | N]; cbn; [reflexivity|].
  intros H. now rewrite IH.
Qed.

Lemma keys_delitem_filter (k : string) (d : Roster) :
  NoDup (keys d) ->
  keys (delitem k d) = filter (fun x => negb (String.eqb k x)) (keys d).
Proof.
  unfold keys. induction d as [|[k0 v0] d IH]; cbn [delitem map filter fst];
    intros Hn; [reflexivity|].
  inversion Hn as [|? ? Hk Hd]; subst.
  destruct (String.eqb_spec k k0) as [-> | N]; cbn [negb map fst].
  - symmetry. apply forallb_filter_id. apply forallb_forall.
    intros x Hx. apply negb_true_iff, String.eqb_neq.
    intros <-. contradiction.
  - f_equal. now apply IH.
Qed.

(** X23: deleting removes exactly the selected character: in a well-formed
    roster the name was present, it is absent afterwards, the roster is one
    entry shorter and the remaining names keep their order. *)
Theorem delete_removes_exactly (st st' : SessionState) (sel : string) :
  roster_ok (roster st) ->
  handle st (DeleteCharacter sel) = Some st' ->
  contains sel (roster st) = true
  /\ getitem sel (roster st') = None
  /\ S (List.length (roster st')) = List.length (roster st)
  /\ keys (roster st')
     = filter (fun k => negb (String.eqb sel k)) (keys (roster st)).
Proof.
  intros Hd H. unfold handle in H. rewrite load_characters_eq in H.
  destruct (getitem sel (roster st)) as [c|] eqn:E; [|discriminate].
  destruct (String.eqb sel ""); [discriminate|]. injection H as <-.
  assert (Hc : contains sel (roster st) = true)
    by (unfold contains; now rewrite E).
  assert (R : roster (delete_character sel (set_characters st (roster st)))
              = delitem sel (roster st)).
  { unfold delete_character, set_characters. cbn [characters].
    now rewrite Hc. }
  rewrite R. split; [exact Hc|]. split; [| split].
  - rewrite getitem_delitem by apply Hd. now rewrite String.eqb_refl.
  - now apply length_delitem.
  - apply keys_delitem_filter, Hd.
Qed.

Lemma delete_removes_exactly_witness :
  match handle camp (DeleteCharacter "Brenna") with
  | Some st' =>
      contains "Brenna" (roster camp) = true
      /\ getitem "Brenna" (roster st') = None
      /\ S (List.length (roster st')) = List.length (roster camp)
      /\ keys (roster st')
         = filter (fun k => negb (String.eqb "Brenna" k))
             (keys (roster camp))
  | None => False
  end.
Proof.
  destruct (handle camp (DeleteCharacter "Brenna")) as [st'|] eqn:E.
  - exact (delete_removes_exactly camp st' "Brenna" camp_ok E).
  - vm_compute in E. discriminate E.
Defined.

(** * The overview *)

(** ** Counting *)

Lemma count_bounds (p : Character -> bool) (l : list Character) :
  0 <= count p l <= Z.of_nat (List.length l).
Proof.
  induction l as [|c l IH]; cbn [count fold_right List.length]; [lia|].
  fold (count p l). destruct (p c); lia.
Qed.

Lemma count_le (p q : Character -> bool) (l : list Character) :
  (forall c, p c = true -> q c = true) -> count p l <= count q l.
Proof.
  intros H. induction l as [|c l IH]; cbn [count fold_right]; [lia|].
  fold (count p l) (count q l). specialize (H c).
  destruct (p c), (q c); try lia; discriminate (H eq_refl).
Qed.

Lemma count_perm (p : Character -> bool) (l l' : list Character) :
  Permutation l l' -> count p l = count p l'.
Proof.
  induction 1 as [| c l l' _ IH | c c' l | l l' l'' _ IH1 _ IH2];
    cbn [count fold_right].
  - reflexivity.
  - fold (count p l) (count p l'). now rewrite IH.
  - destruct (p c), (p c'); lia.
  - congruence.
Qed.

Lemma count_none (p : Character -> bool) (l : list Character) :
  (forall c, In c l -> p c = false) -> count p l = 0.
Proof.
  induction l as [|c l IH]; cbn [count fold_right]; [reflexivity|].
  intros H. fold (count p l). rewrite (H c) by now left.
  apply IH. intros c' Hc. apply H. now right.
Qed.

Lemma count_all (p : Character -> bool) (l : list Character) :
  (forall c, In c l -> p c = true) ->
  count p l = Z.of_nat (List.length l).
Proof.
  induction l as [|c l IH]; cbn [count fold_right List.length];
    [reflexivity|].
  intros H. fold (count p l). rewrite (H c) by now left.
  rewrite IH by (intros c' Hc; apply H; now right). lia.
Qed.

(** X24: the summary statistics add up whatever the order of display: the
    dead count is not negative and makes up the total with the alive
    count, every condition count lies between zero and the alive count,
    and sorting the characters changes no number. *)
Theorem summary_is_consistent (l l' : list Character) :
  Permutation l l' ->
  summary l' = summary l
  /\ alive_count (summary l) + dead_count (summary l) = total (summary l)
  /\ 0 <= dead_count (summary l) /\ 0 <= alive_count (summary l)
  /\ 0 <= wounded_count (summary l) <= alive_count (summary l)
  /\ 0 <= mortally_wounded_count (summary l) <= alive_count (summary l)
  /\ 0 <= impaired_count (summary l) <= alive_count (summary l)
  /\ 0 <= fatigued_count (summary l) <= alive_count (summary l)
  /\ 0 <= scarred_count (summary l) <= alive_count (summary l).
Proof.
  intros Hp. split.
  - unfold summary. cbv zeta.
    rewrite <- !(count_perm _ l l' Hp), (Permutation_length Hp).
    reflexivity.
  - unfold summary. cbv zeta.
    cbn [total alive_count dead_count wounded_count mortally_wounded_count
         impaired_count fatigued_count scarred_count].
    pose proof (count_bounds is_alive l).
    assert (A : forall q, 0 <= count (fun c => is_alive c && q c) l
                          <= count is_alive l).
    { intros q. split; [apply count_bounds|].
      apply count_le. intros c Hc. now apply andb_true_iff in Hc. }
    repeat split; try lia; apply A.
Qed.

Lemma summary_is_consistent_witness :
  summary [fallen; armored] = summary [armored; fallen]
  /\ alive_count (summary [armored; fallen])
     + dead_count (summary [armored; fallen])
     = total (summary [armored; fallen]).
Proof.
  destruct (summary_is_consistent [armored; fallen] [fallen; armored]
              (perm_swap fallen armored [])) as (H1 & H2 & _).
  split; [exact H1 | exact H2].
Defined.

(** ** Filtering *)

(** X25: the status filter shows the living and the dead apart.  "All" is
    the whole roster; "Alive" and "Dead" split it; each of the other
    filters shows living characters only, so it finds in the roster what it
    finds among the living and finds nothing among the dead; and the
    summary of the dead counts no condition at all. *)
Theorem status_filters_split (d : Roster) :
  filter_characters FilterAll d = d
  /\ (List.length (filter_characters FilterAlive d)
      + List.length (filter_characters FilterDead d))%nat = List.length d
  /\ Forall
       (fun sf =>
          filter_characters sf (filter_characters FilterAlive d)
          = filter_characters sf d
          /\ filter_characters sf (filter_characters FilterDead d) = [])
       [FilterAlive; FilterWounded; FilterMortallyWounded; FilterImpaired;
        FilterFatigued; FilterScarred]
  /\ summary (values (filter_characters FilterDead d))
     = mkSummary (Z.of_nat (List.length (filter_characters FilterDead d))) 0
         (Z.of_nat (List.length (filter_characters FilterDead d)))
         0 0 0 0 0.
Proof.
  split; [| split; [| split]].
  - unfold filter_characters. apply forallb_filter_id.
    apply forallb_forall. reflexivity.
  - unfold filter_characters. cbn [matches].
    induction d as [|[k c] d IH]; cbn [filter snd]; [reflexivity|].
    destruct (is_alive c); cbn [negb List.length]; lia.
  - assert (G : forall sf,
      (forall c, matches sf c = true -> is_alive c = true) ->
      filter_characters sf (filter_characters FilterAlive d)
      = filter_characters sf d
      /\ filter_characters sf (filter_characters FilterDead d) = []).
    { intros sf Hsf. unfold filter_characters. cbn [matches].
      induction d as [|[k c] d (IH1 & IH2)]; cbn [filter snd];
        [split; reflexivity|].
      specialize (Hsf c).
      destruct (is_alive c) eqn:Ea; cbn [negb filter snd].
      - rewrite IH1. split; [reflexivity | exact IH2].
      - destruct (matches sf c); [discriminate Hsf; reflexivity|].
        split; [exact IH1 | exact IH2]. }
    repeat constructor; apply G; intros c; cbn [matches]; try tauto;
      intros H; now apply andb_true_iff in H.
  - assert (Hdead : forall c,
      In c (values (filter_characters FilterDead d)) -> is_alive c = false).
    { intros c Hc. unfold values in Hc. apply in_map_iff in Hc.
      destruct Hc as ([k c0] & <- & Hi). unfold filter_characters in Hi.
      apply filter_In in Hi as (_ & Hm). cbn [snd matches] in *.
      now apply negb_true_iff. }
    unfold summary. cbv zeta. unfold values at 1 3. rewrite !length_map.
    rewrite !count_none; [f_equal; lia | | | | | |];
      intros c Hc; rewrite (Hdead c Hc); reflexivity.
Qed.

(** ** The status line *)

(** X26: the status line follows the hit: a full heal always reads
    "Healthy"; after a hit the line reads "Slain" exactly when the report
    says [character_slain]; and a line that still reads "Healthy" means the
    hit inflicted neither a wound nor a mortal wound. *)
Theorem status_follows_hit (c : Character) (d : Z) :
  let c' := fst (apply_damage c d) in
  let r := snd (apply_damage c d) in
  status (reset_to_full c) = StatusHealthy
  /\ (status c' = StatusSlain <-> character_slain r = true)
  /\ (status c' = StatusHealthy ->
      wounded r = false /\ mortal_wound_inflicted r = false).
Proof.
  cbv zeta. destruct (hit_flags c d) as (_ & Ew & Em & _ & Es & _).
  cbv zeta in Ew, Em, Es. rewrite Es. unfold status. rewrite Ew, Em.
  split; [reflexivity|].
  destruct (is_alive (fst (apply_damage c d))), (is_mortally_wounded c),
    (mortal_wound_inflicted (snd (apply_damage c d))), (is_wounded c),
    (wounded (snd (apply_damage c d)));
    cbn [negb orb]; repeat split; intros; try discriminate; auto.
Qed.

Lemma status_follows_hit_witness :
  wounded (snd (apply_damage armored 1)) = false
  /\ mortal_wound_inflicted (snd (apply_damage armored 1)) = false.
Proof.
  apply (status_follows_hit armored 1). reflexivity.
Defined.
